(** * The GitHub event collector of [app.py]: store, poller and metrics

    A shallow embedding of [app.py].  The module-level list [events] is a
    Python list object that the poller mutates in place ([events.append])
    and then replaces ([events = [...]]), while the metric functions build
    fresh lists from it.  The embedding therefore keeps a small heap of list
    objects and the binding of the global name, and every function of the
    source is a computation over that memory.

    Conventions of the embedding:
    - a [datetime] is the number of microseconds since the epoch, in UTC,
      a [timedelta] a number of microseconds.  [count_events], whose
      window comes from the query, raises [OverflowError] as Python does
      when the window is no [timedelta] or the cutoff is no [datetime]
      ([timedelta_minutes], [datetime_sub]); the pruning of line 79
      subtracts two hours from the clock, which stays in range for every
      clock later than 02:00 on the first day of year 1, and is not
      checked;
    - [timedelta.total_seconds()] and the mean returned by
      [average_pr_time] are exact rationals ([Q]); the Python float is the
      binary64 number nearest to that rational;
    - what the outside world decides during one poll cycle (the state of
      [stop_event], the answer of the feed, the clock) is an [environment]
      given to the cycle;
    - a request handler runs in a thread of its own, and the poller holds no
      lock: a handler reads the global [events] once and iterates the list
      object it finds, so what it sees is the store as it is between two
      statements of the poller ([cycle_trace] lists those stores);
    - [print] calls are left out. *)

From Stdlib Require Import ZArith QArith List String Bool Lia.
From Stdlib Require Import Permutation Sorted.
From stdpp Require Import base list numbers sorting strings gmap.
Import ListNotations.

Local Open Scope string_scope.
Local Open Scope Z_scope.
Local Open Scope list_scope.

(** ** Configuration *)

Definition POLL_INTERVAL : Z := 30.
Definition EVENT_RETENTION_MINUTES : Z := 120.
Definition EVENTS_OF_INTEREST : list string :=
  ["PullRequestEvent"; "WatchEvent"; "IssuesEvent"].

(** ** Time *)

Abbreviation datetime := Z (only parsing).
Abbreviation timedelta := Z (only parsing).

(** [timedelta(minutes=n)] *)
Definition minutes (n : Z) : timedelta := n * 60 * 1000000.

(** [datetime.min] and [datetime.max], made aware of UTC: the first
    microsecond of year 1 and the last one of year 9999. *)
Definition datetime_min : datetime := -62135596800 * 1000000.
Definition datetime_max : datetime := 253402300800 * 1000000 - 1.

(** The largest number of days of a [timedelta]. *)
Definition timedelta_max_days : Z := 999999999.

(** [d.total_seconds()] *)
Definition total_seconds (d : timedelta) : Q := d # 1000000.

(** ** Stored records and the memory *)

(** The dictionaries appended by the poller: keys ["type"], ["repo"] and
    ["created_at"].  They are never mutated once built. *)
Record event := {
  type : string;
  repo : string;
  created_at : datetime
}.

Definition loc := nat.

(** [heap] holds the list objects, [events] is the object the global name
    [events] is bound to. *)
Record memory := {
  heap : list (list event);
  events : loc
}.

(** The items of the list object at [r]. *)
Definition contents (m : memory) (r : loc) : list event :=
  default [] (heap m !! r).

(** What a reader of the global [events] sees. *)
Definition store (m : memory) : list event := contents m (events m).

Definition well_formed (m : memory) : Prop := (events m < length (heap m))%nat.

(** The memory at module load: [events = []]. *)
Definition initial_memory : memory := {| heap := [[]]; events := 0%nat |}.

(** ** Computations that may raise *)

(** The [except Exception] clause treats all exceptions alike; the model
    keeps four names and raises [KeyError] for every failed subscript. *)
Inductive exn :=
  KeyError | TypeError | ValueError | RequestException | OverflowError.

Inductive result (A : Type) :=
| Ok (a : A)
| Raise (e : exn).
Arguments Ok {A} a.
Arguments Raise {A} e.

Definition M (A : Type) : Type := memory -> result A * memory.

Definition ret {A} (a : A) : M A := fun m => (Ok a, m).

Definition raise {A} (e : exn) : M A := fun m => (Raise e, m).

Definition bind {A B} (c : M A) (k : A -> M B) : M B :=
  fun m =>
    match c m with
    | (Ok a, m') => k a m'
    | (Raise e, m') => (Raise e, m')
    end.

Notation "x <- c ;; k" := (bind c (fun x => k))
  (at level 100, c at next level, right associativity).
Notation "c ;; k" := (bind c (fun _ => k))
  (at level 100, right associativity).

(** Reading the global name [events]. *)
Definition load_events : M loc := fun m => (Ok (events m), m).

(** [events = r] *)
Definition assign_events (r : loc) : M unit :=
  fun m => (Ok tt, {| heap := heap m; events := r |}).

(** Reading the items of a list object (iteration, [len], indexing). *)
Definition items (r : loc) : M (list event) := fun m => (Ok (contents m r), m).

(** A list display or comprehension: a new list object. *)
Definition new_list (l : list event) : M loc :=
  fun m => (Ok (length (heap m)), {| heap := heap m ++ [l]; events := events m |}).

(** [r.append(e)]: the object is changed in place. *)
Definition list_append (r : loc) (e : event) : M unit :=
  fun m => (Ok tt, {| heap := <[r := contents m r ++ [e]]> (heap m); events := events m |}).

(** [for x in xs: body(x)]; an exception leaves the loop. *)
Fixpoint for_each {A} (xs : list A) (body : A -> M unit) : M unit :=
  match xs with
  | [] => ret tt
  | x :: xs' => body x ;; for_each xs' body
  end.

(** ** Stable sorting, as [list.sort] and [sorted] do it *)

Section StableSort.
Context {A : Type} (leb : A -> A -> bool).

Fixpoint insert_sorted (x : A) (l : list A) : list A :=
  match l with
  | [] => [x]
  | y :: l' => if leb x y then x :: y :: l' else y :: insert_sorted x l'
  end.

(** An element goes before the elements of equal key that followed it. *)
Fixpoint stable_sort (l : list A) : list A :=
  match l with
  | [] => []
  | x :: l' => insert_sorted x (stable_sort l')
  end.
End StableSort.

(** [r.sort(key=...)]: the object is sorted in place. *)
Definition list_sort (r : loc) (leb : event -> event -> bool) : M unit :=
  fun m => (Ok tt, {| heap := <[r := stable_sort leb (contents m r)]> (heap m);
                      events := events m |}).

(** ** The feed *)

(** One element of the decoded answer.  A field is [None] when the
    subscript that reads it raises ([event["type"]], [event["repo"]["name"]],
    [event["created_at"]]: the key is missing or the value is not a
    dictionary).  A ["type"] that is not a string equals no kind of
    interest, like a string outside the list; a ["created_at"] that is not a
    string makes [strptime] raise, like a string it rejects.  [repo_name] is
    a [str], as the source annotates it. *)
Record raw_event := {
  raw_type : option string;
  raw_repo_name : option string;
  raw_created_at : option string
}.

(** [response.json()]: a dictionary with a ["message"] key, something the
    [for] loop can iterate, or something it cannot (a number, [null]).  A
    dictionary without ["message"] is iterated over its keys, which are
    strings: elements on which every subscript raises. *)
Inductive payload :=
| ErrorObject (message : string)
| Iterable (data : list raw_event)
| NotIterable.

(** [requests.get(...)] followed by [response.json()]. *)
Inductive response :=
| RequestFailed
| JsonDecodeFailed
| Json (data : payload).

(** What one invocation of [fetch_github_events] meets. *)
Record environment := {
  stop_at_entry : bool;   (* [stop_event.is_set()] at line 50 *)
  feed : response;
  now : datetime;         (* [datetime.now(timezone.utc)] at line 79 *)
  stop_at_exit : bool     (* [stop_event.is_set()] at line 85 *)
}.

Inductive status :=
| Stopped                 (* returned at line 51 *)
| ApiError                (* returned at line 66 *)
| Completed               (* reached the end of the [try] block *)
| Failed (e : exn).       (* the [except] clause ran *)

Record outcome := {
  cycle_status : status;
  fetched : bool;         (* [requests.get] was called *)
  rescheduled : bool      (* a [threading.Timer] was started *)
}.

Definition subscript {A} (field : option A) : M A :=
  match field with
  | Some v => ret v
  | None => raise KeyError
  end.

Definition of_interest (ty : string) : bool :=
  existsb (String.eqb ty) EVENTS_OF_INTEREST.

Section Poller.
(** [datetime.strptime(s, "%Y-%m-%dT%H:%M:%SZ")] made aware of UTC: the
    seconds since the epoch, or [None] when it raises [ValueError]. *)
Variable strptime : string -> option Z.

Definition parse_created_at (s : string) : M datetime :=
  match strptime s with
  | Some secs => ret (secs * 1000000)
  | None => raise ValueError
  end.

(** The body of the [for] loop, lines 69-76. *)
Definition process_event (ev : raw_event) : M unit :=
  ty <- subscript (raw_type ev) ;;
  if of_interest ty then
    repo_name <- subscript (raw_repo_name ev) ;;
    ty' <- subscript (raw_type ev) ;;
    s <- subscript (raw_created_at ev) ;;
    t <- parse_created_at s ;;
    r <- load_events ;;
    list_append r {| type := ty'; repo := repo_name; created_at := t |}
  else ret tt.

Definition requests_get_json (f : response) : M payload :=
  match f with
  | RequestFailed => raise RequestException
  | JsonDecodeFailed => raise ValueError
  | Json data => ret data
  end.

(** Lines 78-80: a new list of the recent records, bound to [events]. *)
Definition prune (t : datetime) : M unit :=
  let cutoff := t - minutes EVENT_RETENTION_MINUTES in
  r <- load_events ;;
  l <- items r ;;
  r' <- new_list (List.filter (fun e => created_at e >=? cutoff) l) ;;
  assign_events r'.

(** The [try] block, lines 54-80. *)
Definition try_block (env : environment) : M status :=
  data <- requests_get_json (feed env) ;;
  match data with
  | ErrorObject _ => ret ApiError
  | NotIterable => raise TypeError
  | Iterable evs =>
      for_each evs process_event ;;
      prune (now env) ;;
      ret Completed
  end.

Definition fetch_github_events (env : environment) (m : memory)
  : outcome * memory :=
  if stop_at_entry env then
    ({| cycle_status := Stopped; fetched := false; rescheduled := false |}, m)
  else
    let '(r, m') := try_block env m in
    ({| cycle_status := match r with Ok s => s | Raise e => Failed e end;
        fetched := true;
        rescheduled := negb (stop_at_exit env) |}, m').

(** The chain of timers: each invocation that starts a timer is followed
    by the next one, with the next environment. *)
Fixpoint run (envs : list environment) (m : memory) : memory :=
  match envs with
  | [] => m
  | env :: envs' =>
      let '(o, m') := fetch_github_events env m in
      if rescheduled o then run envs' m' else m'
  end.
End Poller.

(** ** [collections.Counter] *)

(** A [Counter] is a dictionary: its keys come in the order of their first
    insertion, each with its count. *)
Definition counter := list (string * nat).

(** [c[k] += 1], a missing key counting for 0. *)
Fixpoint counter_add (k : string) (c : counter) : counter :=
  match c with
  | [] => [(k, 1%nat)]
  | (k', n) :: c' =>
      if String.eqb k k' then (k', S n) :: c' else (k', n) :: counter_add k c'
  end.

(** [Counter(iterable)] *)
Definition Counter (keys : list string) : counter :=
  fold_left (fun c k => counter_add k c) keys [].

(** The value stored under [k], [None] when [k] is not a key. *)
Fixpoint counter_get (c : counter) (k : string) : option nat :=
  match c with
  | [] => None
  | (k', n) :: c' => if String.eqb k k' then Some n else counter_get c' k
  end.

(** [c.most_common(n)], that is [heapq.nlargest(n, c.items(), key=count)]:
    the first [n] items of [sorted(c.items(), key=count, reverse=True)],
    no item when [n <= 0]. *)
Definition by_count_desc (x y : string * nat) : bool := (snd y <=? snd x)%nat.

Definition most_common (n : Z) (c : counter) : list (string * nat) :=
  firstn (Z.to_nat n) (stable_sort by_count_desc c).

(** ** Metrics functions *)

Definition is_pr_of (repo_name : string) (e : event) : bool :=
  String.eqb (type e) "PullRequestEvent" && String.eqb (repo e) repo_name.

Definition by_created_at (x y : event) : bool := created_at x <=? created_at y.

Definition no_event : event := {| type := ""; repo := ""; created_at := 0 |}.

(** Lines 107-110: one difference for each [i] in [range(1, len(pr_events))]. *)
Definition time_diffs (pr_events : list event) : list Q :=
  map (fun i => total_seconds (created_at (nth i pr_events no_event)
                               - created_at (nth (i - 1) pr_events no_event)))
      (seq 1 (length pr_events - 1)).

(** [sum(xs)] *)
Definition sum (xs : list Q) : Q := fold_left Qplus xs 0%Q.

Definition average_pr_time (repo_name : string) : M (option Q) :=
  r <- load_events ;;
  l <- items r ;;
  pr_events <- new_list (List.filter (is_pr_of repo_name) l) ;;
  list_sort pr_events by_created_at ;;
  s <- items pr_events ;;
  if (length s <? 2)%nat then ret None
  else
    let diffs := time_diffs s in
    ret (Some (sum diffs / inject_Z (Z.of_nat (length diffs)))%Q).

(** [timedelta(minutes=n)] for an integer [n]: [OverflowError] when the
    number of days, [n * 60 // 86400], has a magnitude above 999999999. *)
Definition timedelta_minutes (n : Z) : M timedelta :=
  if Z.abs (n / 1440) <=? timedelta_max_days then ret (minutes n)
  else raise OverflowError.

(** [t - d] for a [datetime] [t]: [OverflowError] when the result is
    before year 1 or after year 9999. *)
Definition datetime_sub (t : datetime) (d : timedelta) : M datetime :=
  if (datetime_min <=? t - d) && (t - d <=? datetime_max) then ret (t - d)
  else raise OverflowError.

(** [t] is the value of [datetime.now(timezone.utc)] at line 124. *)
Definition count_events (t : datetime) (offset_minutes : Z) : M counter :=
  d <- timedelta_minutes offset_minutes ;;
  cutoff <- datetime_sub t d ;;
  r <- load_events ;;
  l <- items r ;;
  recent_events <- new_list (List.filter (fun e => created_at e >=? cutoff) l) ;;
  s <- items recent_events ;;
  ret (Counter (map type s)).

(** The route [/metrics/top_repos], [top_n] being the integer read from the
    query; the JSON objects of the answer are pairs (repo, event_count). *)
Definition top_repos (top_n : Z) : M (list (string * nat)) :=
  r <- load_events ;;
  l <- items r ;;
  pr_events <- new_list (List.filter (fun e => String.eqb (type e) "PullRequestEvent") l) ;;
  s <- items pr_events ;;
  let repo_counts := Counter (map repo s) in
  ret (most_common top_n repo_counts).

(** ** What a concurrent reader can see of a poll cycle *)

(** The poller changes the memory one statement at a time and holds no
    lock: a request handler can run between any two iterations of the
    [for] loop.  [loop_trace] lists the memory after each iteration, up to
    the one that raises. *)
Fixpoint loop_trace (body : raw_event -> M unit) (evs : list raw_event)
  (m : memory) : list memory :=
  match evs with
  | [] => []
  | ev :: evs' =>
      match body ev m with
      | (Ok _, m') => m' :: loop_trace body evs' m'
      | (Raise _, m') => [m']
      end
  end.

Section Readers.
Variable strptime : string -> option Z.

(** The successive memories of one invocation of [fetch_github_events],
    the one it starts from included. *)
Definition cycle_trace (env : environment) (m : memory) : list memory :=
  if stop_at_entry env then [m]
  else
    match feed env with
    | Json (Iterable evs) =>
        m :: loop_trace (process_event strptime) evs m
          ++ match for_each evs (process_event strptime) m with
             | (Ok _, m') => [snd (prune (now env) m')]
             | (Raise _, _) => []
             end
    | _ => [m]
    end.

(** The records the loop appends: those of the kinds of interest, up to the
    first element that raises. *)
Fixpoint accepted (evs : list raw_event) : list event :=
  match evs with
  | [] => []
  | ev :: evs' =>
      match raw_type ev with
      | None => []
      | Some ty =>
          if of_interest ty then
            match raw_repo_name ev, raw_created_at ev with
            | Some name, Some s =>
                match strptime s with
                | Some secs =>
                    {| type := ty; repo := name; created_at := secs * 1000000 |}
                      :: accepted evs'
                | None => []
                end
            | _, _ => []
            end
          else accepted evs'
      end
  end.
End Readers.

(** A view of the store that holds none or all of a batch. *)
Definition whole_batch_view (before batch : list event) (cutoff : datetime)
  (view : list event) : Prop :=
  view = before \/
  view = before ++ batch \/
  view = List.filter (fun e => created_at e >=? cutoff) (before ++ batch).

(** ** Notions used in the statements *)

(** A memory [m'] keeps what [m] holds: the binding of [events] and every
    list object of [m]. *)
Definition keeps (m m' : memory) : Prop :=
  events m' = events m /\
  forall (r : loc) (l : list event), heap m !! r = Some l -> heap m' !! r = Some l.

(** The memory once the records [l] have been appended to the list object
    bound to [events]. *)
Definition append_store (m : memory) (l : list event) : memory :=
  {| heap := <[events m := store m ++ l]> (heap m); events := events m |}.

(** The feed could not be reached, its answer could not be decoded, or
    the answer is an error object. *)
Definition feed_fails (f : response) : Prop :=
  f = RequestFailed \/ f = JsonDecodeFailed \/ exists msg, f = Json (ErrorObject msg).

(** The records a poll cycle appends. *)
Definition cycle_batch (strptime : string -> option Z) (env : environment)
  : list event :=
  if stop_at_entry env then []
  else
    match feed env with
    | Json (Iterable evs) => accepted strptime evs
    | _ => []
    end.

(** Every reader of a cycle sees none or all of its batch. *)
Definition readers_see_whole_batches (strptime : string -> option Z)
  (env : environment) (m : memory) : Prop :=
  forall m', In m' (cycle_trace strptime env m) ->
    whole_batch_view (store m) (cycle_batch strptime env)
                     (now env - minutes EVENT_RETENTION_MINUTES) (store m').

(** The window of [offset_minutes] minutes before [t] can be computed:
    it is a [timedelta] and its start is a [datetime]. *)
Definition window_in_range (t : datetime) (offset_minutes : Z) : Prop :=
  - timedelta_max_days <= offset_minutes / 1440 <= timedelta_max_days /\
  datetime_min <= t - minutes offset_minutes <= datetime_max.

(** ** The mean of the intervals, as the specification words it *)

(** The differences between consecutive timestamps. *)
Fixpoint gaps (ts : list Z) : list Z :=
  match ts with
  | [] => []
  | t :: ts' =>
      match ts' with
      | [] => []
      | t' :: _ => (t' - t) :: gaps ts'
      end
  end.

(** The same differences, in seconds. *)
Definition intervals_seconds (ts : list Z) : list Q :=
  map (fun d => d # 1000000) (gaps ts).

Definition arithmetic_mean (qs : list Q) : Q :=
  (fold_right Qplus 0 qs / inject_Z (Z.of_nat (length qs)))%Q.

(** ** Reading a counter *)

(** The number of times [k] occurs in [keys]. *)
Definition occurrences (k : string) (keys : list string) : nat :=
  length (List.filter (fun k' => String.eqb k' k) keys).

Definition count_of (c : counter) (k : string) : nat :=
  default 0%nat (counter_get c k).

(** The stored counts are positive, and each key comes once. *)
Definition counter_ok (c : counter) : Prop :=
  List.NoDup (map fst c) /\ forall k n, counter_get c k = Some n -> (0 < n)%nat.

(** ** Sample stores, feeds and poll cycles *)

Definition pull_request (repo_name : string) (t : datetime) : event :=
  {| type := "PullRequestEvent"; repo := repo_name; created_at := t |}.

Definition watch (repo_name : string) (t : datetime) : event :=
  {| type := "WatchEvent"; repo := repo_name; created_at := t |}.

(** A store with three pull requests in the last ten minutes before [t]
    (one of them exactly ten minutes old), two older ones, and a star. *)
Definition window_example (t : datetime) : memory :=
  {| heap := [[pull_request "a/x" (t - minutes 1);
               pull_request "b/y" (t - minutes 11);
               watch "a/x" (t - minutes 2);
               pull_request "a/x" (t - minutes 10);
               pull_request "c/z" (t - minutes 5);
               pull_request "a/x" (t - minutes 120)]];
     events := 0%nat |}.

Definition sample_strptime (s : string) : option Z :=
  if String.eqb s "2024-01-01T00:00:00Z" then Some 1704067200
  else if String.eqb s "2024-01-01T00:00:10Z" then Some 1704067210
  else None.

Definition sample_feed : list raw_event :=
  [ {| raw_type := Some "WatchEvent"; raw_repo_name := Some "a/x";
       raw_created_at := Some "2024-01-01T00:00:00Z" |};
    {| raw_type := Some "PushEvent"; raw_repo_name := Some "c/z";
       raw_created_at := Some "2024-01-01T00:00:05Z" |};
    {| raw_type := Some "IssuesEvent"; raw_repo_name := Some "b/y";
       raw_created_at := Some "2024-01-01T00:00:10Z" |} ].

(** A cycle that runs fifteen seconds after the first event. *)
Definition sample_env : environment :=
  {| stop_at_entry := false;
     feed := Json (Iterable sample_feed);
     now := 1704067215 * 1000000;
     stop_at_exit := false |}.

(** The memory after the first iteration of the loop of that cycle. *)
Definition sample_partial : memory :=
  {| heap := [[watch "a/x" (1704067200 * 1000000)]]; events := 0%nat |}.

(** The same feed with a timestamp that [strptime] rejects in its last
    element. *)
Definition sample_broken_env : environment :=
  {| stop_at_entry := false;
     feed := Json (Iterable
               [ {| raw_type := Some "WatchEvent"; raw_repo_name := Some "a/x";
                    raw_created_at := Some "2024-01-01T00:00:00Z" |};
                 {| raw_type := Some "IssuesEvent"; raw_repo_name := Some "b/y";
                    raw_created_at := Some "yesterday" |} ]);
     now := 1704067215 * 1000000;
     stop_at_exit := false |}.

Definition sample_unreachable_env : environment :=
  {| stop_at_entry := false; feed := RequestFailed;
     now := 1704067215 * 1000000; stop_at_exit := false |}.

Definition sample_stopped_env : environment :=
  {| stop_at_entry := true; feed := Json (Iterable sample_feed);
     now := 1704067215 * 1000000; stop_at_exit := true |}.

(** Pull requests of ["a/x"] at 0 s, 10 s and 30 s, stored out of order
    among other records. *)
Definition sample_store : memory :=
  {| heap := [[pull_request "a/x" 10000000;
               watch "a/x" 5000000;
               pull_request "a/x" 0;
               pull_request "b/y" 7000000;
               pull_request "a/x" 30000000]];
     events := 0%nat |}.

(** Five pull requests of ["a/x"], five of ["b/y"] and two of ["c/z"],
    the first of ["b/y"] stored before the first of ["a/x"]. *)
Definition ranking_example : memory :=
  {| heap := [[pull_request "b/y" 1; pull_request "a/x" 2; pull_request "c/z" 3;
               pull_request "a/x" 4; pull_request "b/y" 5; watch "c/z" 6;
               pull_request "a/x" 7; pull_request "b/y" 8; pull_request "c/z" 9;
               pull_request "a/x" 10; pull_request "b/y" 11;
               pull_request "a/x" 12; pull_request "b/y" 13]];
     events := 0%nat |}.

(** ** The routes *)

(** The body of an answer of [/metrics/pr_average]: the error object, or
    the object with the keys ["repo"], ["average_time_seconds"] and, when
    there is no average, ["message"]. *)
Inductive pr_average_body :=
| ErrorBody (error : string)
| AverageBody (repo_name : string) (average_time_seconds : option Q)
              (message : option string).

(** [pr_average], [repo] being [request.args.get("repo")]; the answer comes
    with its HTTP status. *)
Definition pr_average (repo : option string) : M (pr_average_body * Z) :=
  match repo with
  | None => ret (ErrorBody "Please provide repo parameter", 400)
  | Some r =>
      if String.eqb r "" then ret (ErrorBody "Please provide repo parameter", 400)
      else
        avg <- average_pr_time r ;;
        match avg with
        | None => ret (AverageBody r None (Some "Not enough PR events yet"), 200)
        | Some q => ret (AverageBody r (Some q) None, 200)
        end
  end.

(** [list_repos]: the names of the set comprehension.  The list of the
    answer follows the iteration order of a Python set, which the model
    leaves out: the answer is a finite set. *)
Definition list_repos : M (gset string) :=
  r <- load_events ;;
  l <- items r ;;
  ret (list_to_set (map repo l)).

(** [debug_events]: the slice [events[:5]] is a new list. *)
Definition debug_events : M (list event) :=
  r <- load_events ;;
  l <- items r ;;
  sample <- new_list (firstn 5 l) ;;
  items sample.

Section QueryNumbers.
(** [int(s)] for a string [s] of the query: the integer, or [None] when it
    raises [ValueError]. *)
Variable int_of_str : string -> option Z.

(** [int(request.args.get(name, default))] *)
Definition int_arg (arg : option string) (default : Z) : M Z :=
  match arg with
  | None => ret default
  | Some s =>
      match int_of_str s with
      | Some n => ret n
      | None => raise ValueError
      end
  end.

(** [events_count], [t] being the clock read by [count_events]; the
    [OverflowError] of [count_events] goes through. *)
Definition events_count (offset : option string) (t : datetime) : M counter :=
  offset_minutes <- int_arg offset 10 ;;
  count_events t offset_minutes.

(** [top_repos] from the query string on. *)
Definition top_repos_request (n : option string) : M (list (string * nat)) :=
  top_n <- int_arg n 5 ;;
  top_repos top_n.
End QueryNumbers.

(** ** The process: timers and shutdown *)

(** [pending] counts the invocations of [fetch_github_events] still to
    come: the timers started and not yet fired. *)
Record system := {
  mem : memory;
  stop_event : bool;
  pending : nat
}.

(** What happens to the process: a pending timer fires and calls
    [fetch_github_events] ([signalled] when [handle_shutdown] runs while
    that call is under way), or [handle_shutdown] runs between two calls.
    [sys.exit] ends the main thread; the timer threads go on. *)
Inductive occurrence :=
| TimerFires (f : response) (t : datetime) (signalled : bool)
| Shutdown.

Section Process.
Variable strptime : string -> option Z.

(** The process once line 244 has called [fetch_github_events] for the
    first time, no signal having come during that call. *)
Definition boot (f : response) (t : datetime) : system :=
  let env := {| stop_at_entry := false; feed := f; now := t;
                stop_at_exit := false |} in
  let '(o, m) := fetch_github_events strptime env initial_memory in
  {| mem := m; stop_event := false;
     pending := if rescheduled o then 1%nat else 0%nat |}.

(** [None] when no timer is there to fire. *)
Definition step (s : system) (o : occurrence) : option system :=
  match o with
  | Shutdown =>
      Some {| mem := mem s; stop_event := true; pending := pending s |}
  | TimerFires f t signalled =>
      match pending s with
      | O => None
      | S n =>
          let env := {| stop_at_entry := stop_event s; feed := f; now := t;
                        stop_at_exit := stop_event s || signalled |} in
          let '(o, m) := fetch_github_events strptime env (mem s) in
          Some {| mem := m;
                  stop_event := stop_event s || signalled;
                  pending := if rescheduled o then S n else n |}
      end
  end.

Fixpoint steps (s : system) (os : list occurrence) : option system :=
  match os with
  | [] => Some s
  | o :: os' =>
      match step s o with
      | Some s' => steps s' os'
      | None => None
      end
  end.

(** [handle_shutdown] runs during the occurrence: it is the occurrence,
    or it comes while the poll cycle is under way. *)
Definition handles_signal (o : occurrence) : bool :=
  match o with
  | Shutdown => true
  | TimerFires _ _ signalled => signalled
  end.

(** The memory that the poll cycle of an occurrence leaves when no signal
    comes during it; the memory as it is for an occurrence without a
    cycle, and for a cycle that finds [stop_event] set. *)
Definition memory_after (s : system) (o : occurrence) : memory :=
  match o with
  | Shutdown => mem s
  | TimerFires f t _ =>
      if stop_event s then mem s
      else snd (fetch_github_events strptime
                  {| stop_at_entry := false; feed := f; now := t;
                     stop_at_exit := false |} (mem s))
  end.

(** The feed without the elements of a kind that is not of interest. *)
Definition of_other_kind (ev : raw_event) : bool :=
  match raw_type ev with
  | Some ty => negb (of_interest ty)
  | None => false
  end.

Definition without_other_kinds (env : environment) : environment :=
  {| stop_at_entry := stop_at_entry env;
     feed := match feed env with
             | Json (Iterable evs) =>
                 Json (Iterable (List.filter (fun ev => negb (of_other_kind ev)) evs))
             | f => f
             end;
     now := now env;
     stop_at_exit := stop_at_exit env |}.

(** The cycles one after the other, whether they start a timer or not. *)
Definition all_cycles (envs : list environment) (m : memory) : memory :=
  fold_left (fun m env => snd (fetch_github_events strptime env m)) envs m.
End Process.

(** ** Orders and totals *)

(** The keys in the order of their first occurrence. *)
Fixpoint first_occurrences (keys : list string) : list string :=
  match keys with
  | [] => []
  | k :: keys' =>
      k :: List.filter (fun k' => negb (String.eqb k' k)) (first_occurrences keys')
  end.

(** The sum of the counts of a counter. *)
Definition counter_total (c : counter) : nat :=
  fold_right (fun kn total => (snd kn + total)%nat) 0%nat c.

Definition recent (cutoff : datetime) (e : event) : bool :=
  created_at e >=? cutoff.

Definition is_pull_request (e : event) : bool :=
  String.eqb (type e) "PullRequestEvent".

(** The number of timers that fire among [os]. *)
Definition fires (os : list occurrence) : nat :=
  length (List.filter (fun o => match o with TimerFires _ _ _ => true | Shutdown => false end) os).

(** The sample cycle again, thirty seconds later. *)
Definition sample_later_env : environment :=
  {| stop_at_entry := false;
     feed := Json (Iterable sample_feed);
     now := 1704067245 * 1000000;
     stop_at_exit := false |}.

(** The records of [sample_store] in another order. *)
Definition sample_store_shuffled : memory :=
  {| heap := [[pull_request "a/x" 30000000;
               pull_request "b/y" 7000000;
               pull_request "a/x" 10000000;
               pull_request "a/x" 0;
               watch "a/x" 5000000]];
     events := 0%nat |}.

(** * Properties *)

(** ** The memory *)

Lemma contents_new_list (h : list (list event)) (ev : loc) (l : list event) :
  contents {| heap := h ++ [l]; events := ev |} (length h) = l.
Proof. unfold contents; simpl. by rewrite list_lookup_middle. Qed.

Lemma insert_new_list (h : list (list event)) (l l' : list event) :
  <[length h := l']> (h ++ [l]) = h ++ [l'].
Proof. by rewrite <- (Nat.add_0_r (length h)), insert_app_r. Qed.

Lemma keeps_new_list (m : memory) (l : list event) :
  keeps m {| heap := heap m ++ [l]; events := events m |}.
Proof.
  split; [done | simpl; intros r x Hr].
  by apply lookup_app_l_Some.
Qed.

Lemma store_new_list (m : memory) (l : list event) :
  (store m = [] -> l = []) ->
  store {| heap := heap m ++ [l]; events := events m |} = store m.
Proof.
  intros Hl. unfold store, contents in *; simpl in *.
  destruct (heap m !! events m) as [x|] eqn:Hx.
  - by rewrite (lookup_app_l_Some _ _ _ _ Hx).
  - apply lookup_ge_None in Hx. simpl in Hl. rewrite (Hl eq_refl).
    destruct (decide (events m = length (heap m))) as [->|Hne].
    + by rewrite list_lookup_middle.
    + rewrite lookup_ge_None_2; [done|]. rewrite length_app; simpl. lia.
Qed.

(** ** Stable sorting *)

Section StableSortFacts.
Context {A : Type} (leb : A -> A -> bool).

Lemma insert_sorted_perm (x : A) (l : list A) :
  Permutation (insert_sorted leb x l) (x :: l).
Proof.
  induction l as [|y l IH]; simpl; [done|].
  destruct (leb x y); [done|].
  rewrite IH. apply perm_swap.
Qed.

Lemma stable_sort_perm (l : list A) : Permutation (stable_sort leb l) l.
Proof.
  induction l as [|x l IH]; simpl; [done|].
  by rewrite insert_sorted_perm, IH.
Qed.

Lemma stable_sort_length (l : list A) : length (stable_sort leb l) = length l.
Proof. apply Permutation_length, stable_sort_perm. Qed.

Lemma stable_sort_nil (l : list A) : l = [] -> stable_sort leb l = [].
Proof. by intros ->. Qed.

Hypothesis leb_total : forall x y, leb x y = false -> leb y x = true.

Lemma insert_sorted_sorted (x : A) (l : list A) :
  Sorted (fun a b => leb a b = true) l ->
  Sorted (fun a b => leb a b = true) (insert_sorted leb x l).
Proof.
  induction 1 as [|y l Hl IH Hy]; simpl.
  - by repeat constructor.
  - destruct (leb x y) eqn:Hxy.
    + by repeat constructor.
    + constructor; [done|].
      destruct Hy as [|z l' Hz]; simpl.
      * constructor. by apply leb_total.
      * destruct (leb x z); constructor; [by apply leb_total | done].
Qed.

Lemma stable_sort_sorted (l : list A) :
  Sorted (fun a b => leb a b = true) (stable_sort leb l).
Proof.
  induction l as [|x l IH]; simpl; [constructor|].
  by apply insert_sorted_sorted.
Qed.
End StableSortFacts.

(** ** The metric functions in closed form *)

Lemma average_pr_time_eq (repo_name : string) (m : memory) :
  average_pr_time repo_name m =
    let s := stable_sort by_created_at (List.filter (is_pr_of repo_name) (store m)) in
    (Ok (if (length s <? 2)%nat then None
         else Some (sum (time_diffs s)
                    / inject_Z (Z.of_nat (length (time_diffs s))))%Q),
     {| heap := heap m ++ [s]; events := events m |}).
Proof.
  unfold average_pr_time, bind, load_events, items, new_list, list_sort; simpl.
  rewrite !contents_new_list, insert_new_list, contents_new_list.
  fold (store m).
  by destruct (length _ <? 2)%nat.
Qed.

Lemma window_in_range_dec (t : datetime) (offset_minutes : Z) :
  (Z.abs (offset_minutes / 1440) <=? timedelta_max_days)
  && ((datetime_min <=? t - minutes offset_minutes)
      && (t - minutes offset_minutes <=? datetime_max)) = true
  <-> window_in_range t offset_minutes.
Proof.
  unfold window_in_range. rewrite !andb_true_iff, !Z.leb_le. lia.
Qed.

Lemma count_events_eq (t : datetime) (offset_minutes : Z) (m : memory) :
  window_in_range t offset_minutes ->
  count_events t offset_minutes m =
    let recent :=
      List.filter (fun e => created_at e >=? t - minutes offset_minutes) (store m) in
    (Ok (Counter (map type recent)),
     {| heap := heap m ++ [recent]; events := events m |}).
Proof.
  intros Hw. apply window_in_range_dec in Hw.
  apply andb_true_iff in Hw as [Hd Hc].
  unfold count_events, timedelta_minutes, datetime_sub, bind.
  rewrite Hd; cbn [ret]. rewrite Hc; cbn [ret].
  unfold load_events, items, new_list; simpl.
  by rewrite contents_new_list.
Qed.

Lemma count_events_overflow (t : datetime) (offset_minutes : Z) (m : memory) :
  ~ window_in_range t offset_minutes ->
  count_events t offset_minutes m = (Raise OverflowError, m).
Proof.
  intros Hw. rewrite <- window_in_range_dec in Hw.
  apply not_true_is_false, andb_false_iff in Hw.
  unfold count_events, timedelta_minutes, datetime_sub, bind.
  destruct (Z.abs (offset_minutes / 1440) <=? timedelta_max_days); cbn [ret raise].
  - destruct Hw as [Hw | Hw]; [discriminate|]. by rewrite Hw.
  - done.
Qed.

Lemma window_in_range_decide (t : datetime) (offset_minutes : Z) :
  window_in_range t offset_minutes \/ ~ window_in_range t offset_minutes.
Proof.
  rewrite <- window_in_range_dec.
  destruct (_ && _); [by left | right; discriminate].
Qed.

(** The memory after [count_events] either way: at most one new list. *)
Lemma count_events_memory (t : datetime) (offset_minutes : Z) (m : memory) :
  snd (count_events t offset_minutes m) = m \/
  snd (count_events t offset_minutes m)
  = {| heap := heap m
               ++ [List.filter (fun e => created_at e >=? t - minutes offset_minutes)
                               (store m)];
       events := events m |}.
Proof.
  destruct (window_in_range_decide t offset_minutes) as [Hw | Hw].
  - right. by rewrite count_events_eq.
  - left. by rewrite count_events_overflow.
Qed.

Lemma top_repos_eq (top_n : Z) (m : memory) :
  top_repos top_n m =
    let prs :=
      List.filter (fun e => String.eqb (type e) "PullRequestEvent") (store m) in
    (Ok (most_common top_n (Counter (map repo prs))),
     {| heap := heap m ++ [prs]; events := events m |}).
Proof.
  unfold top_repos, bind, load_events, items, new_list; simpl.
  by rewrite contents_new_list.
Qed.

Lemma filter_nil_of_nil {A} (f : A -> bool) (l : list A) :
  l = [] -> List.filter f l = [].
Proof. by intros ->. Qed.

(** C9: [average_pr_time], [count_events] and [top_repos] leave the global
    [events] bound to the same list object, leave every list object that
    existed before the call as it was, and so leave the stored collection
    unchanged; the list that [average_pr_time] sorts is a new object. *)
Theorem metrics_leave_store_unchanged
  (m : memory) (repo_name : string) (t : datetime) (offset_minutes top_n : Z) :
  let m1 := snd (average_pr_time repo_name m) in
  let m2 := snd (count_events t offset_minutes m) in
  let m3 := snd (top_repos top_n m) in
  (keeps m m1 /\ store m1 = store m) /\
  (keeps m m2 /\ store m2 = store m) /\
  (keeps m m3 /\ store m3 = store m).
Proof.
  rewrite average_pr_time_eq, top_repos_eq; simpl.
  destruct (count_events_memory t offset_minutes m) as [-> | ->];
    repeat split; try apply keeps_new_list; try done; apply store_new_list; intros H.
  - apply stable_sort_nil, filter_nil_of_nil, H.
  - apply filter_nil_of_nil, H.
  - apply stable_sort_nil, filter_nil_of_nil, H.
  - apply filter_nil_of_nil, H.
  - apply filter_nil_of_nil, H.
Qed.

(** ** The poller *)

Lemma append_store_nil (m : memory) : append_store m [] = m.
Proof.
  destruct m as [h ev]. unfold append_store, store, contents; simpl.
  rewrite app_nil_r. f_equal.
  destruct (h !! ev) as [x|] eqn:Hx; simpl.
  - by apply list_insert_id.
  - apply list_insert_ge. by apply lookup_ge_None.
Qed.

Lemma store_append_store (m : memory) (l : list event) :
  well_formed m -> store (append_store m l) = store m ++ l.
Proof.
  intros Hwf. unfold append_store, store at 1, contents; simpl.
  by rewrite list_lookup_insert_eq.
Qed.

Lemma store_append_store_dangling (m : memory) (l : list event) :
  ~ well_formed m -> append_store m l = m.
Proof.
  intros Hwf. destruct m as [h ev]. unfold append_store, well_formed in *; simpl in *.
  f_equal. apply list_insert_ge. lia.
Qed.

Lemma well_formed_append_store (m : memory) (l : list event) :
  well_formed m -> well_formed (append_store m l).
Proof. unfold well_formed, append_store; simpl. by rewrite length_insert. Qed.

Lemma append_store_app (m : memory) (l1 l2 : list event) :
  append_store (append_store m l1) l2 = append_store m (l1 ++ l2).
Proof.
  destruct (decide (well_formed m)) as [Hwf|Hwf].
  - unfold append_store at 1. rewrite store_append_store by done.
    unfold append_store; simpl. by rewrite list_insert_insert_eq, app_assoc.
  - rewrite (store_append_store_dangling m l1 Hwf).
    by rewrite !(store_append_store_dangling m _ Hwf).
Qed.

Section PollerFacts.
Variable strptime : string -> option Z.

(** One iteration of the loop appends one record of a kind of interest,
    skips the element, or raises and leaves the memory as it was. *)
Lemma process_event_cases (ev : raw_event) (m : memory) :
  (exists e, process_event strptime ev m = (Ok tt, append_store m [e]) /\
             of_interest (type e) = true /\
             forall evs, accepted strptime (ev :: evs) = e :: accepted strptime evs) \/
  (process_event strptime ev m = (Ok tt, m) /\
   forall evs, accepted strptime (ev :: evs) = accepted strptime evs) \/
  (exists x, process_event strptime ev m = (Raise x, m) /\
             forall evs, accepted strptime (ev :: evs) = []).
Proof.
  destruct ev as [[ty|] name created].
  2: { right; right. exists KeyError. by split. }
  destruct (of_interest ty) eqn:Hty.
  2: { right; left. split; [unfold process_event, bind | intros evs]; simpl;
       by rewrite Hty. }
  destruct name as [name|].
  2: { right; right. exists KeyError.
       split; [unfold process_event, bind | intros evs]; simpl; by rewrite Hty. }
  destruct created as [s|].
  2: { right; right. exists KeyError.
       split; [unfold process_event, bind | intros evs]; simpl; by rewrite Hty. }
  destruct (strptime s) as [secs|] eqn:Hs.
  - left. exists {| type := ty; repo := name; created_at := secs * 1000000 |}.
    split; [|split; [done|]].
    + unfold process_event, bind, parse_created_at; simpl. by rewrite Hty, Hs.
    + intros evs; simpl. by rewrite Hty, Hs.
  - right; right. exists ValueError.
    split; [unfold process_event, bind, parse_created_at | intros evs]; simpl;
      by rewrite Hty, Hs.
Qed.

(** The loop appends the accepted records, in the order of the feed. *)
Lemma for_each_process_event (evs : list raw_event) (m : memory) :
  snd (for_each evs (process_event strptime) m)
  = append_store m (accepted strptime evs).
Proof.
  revert m; induction evs as [|ev evs IH]; intros m.
  - simpl. by rewrite append_store_nil.
  - cbn [for_each]. unfold bind.
    destruct (process_event_cases ev m)
      as [(e & -> & _ & Hacc) | [(-> & Hacc) | (x & -> & Hacc)]]; rewrite Hacc.
    + rewrite IH. apply (append_store_app m [e]).
    + apply IH.
    + simpl. by rewrite append_store_nil.
Qed.

Lemma accepted_of_interest (evs : list raw_event) :
  Forall (fun e => of_interest (type e) = true) (accepted strptime evs).
Proof.
  induction evs as [|ev evs IH]; [constructor|].
  destruct (process_event_cases ev initial_memory)
    as [(e & _ & He & Hacc) | [(_ & Hacc) | (x & _ & Hacc)]]; rewrite Hacc;
    by repeat constructor.
Qed.

Lemma store_prune (t : datetime) (m : memory) :
  store (snd (prune t m))
  = List.filter (fun e => created_at e >=? t - minutes EVENT_RETENTION_MINUTES)
                (store m).
Proof.
  unfold prune, bind, load_events, items, new_list, assign_events; simpl.
  unfold store at 1; simpl. apply contents_new_list.
Qed.

Lemma prune_ok (t : datetime) (m : memory) : fst (prune t m) = Ok tt.
Proof. reflexivity. Qed.

Lemma try_block_completed (env : environment) (m : memory) :
  fst (try_block strptime env m) = Ok Completed ->
  exists evs,
    feed env = Json (Iterable evs) /\
    snd (try_block strptime env m)
    = snd (prune (now env) (append_store m (accepted strptime evs))).
Proof.
  unfold try_block, bind.
  destruct (feed env) as [| |[msg|evs|]]; simpl; try discriminate.
  pose proof (for_each_process_event evs m) as Hm1.
  destruct (for_each evs (process_event strptime) m) as [[[]|x] m1];
    cbn [fst snd] in *; [|discriminate].
  intros _. exists evs; split; [done|]. by subst m1.
Qed.

Lemma fetch_completed (env : environment) (m : memory) :
  cycle_status (fst (fetch_github_events strptime env m)) = Completed ->
  stop_at_entry env = false /\
  fst (try_block strptime env m) = Ok Completed /\
  snd (fetch_github_events strptime env m) = snd (try_block strptime env m).
Proof.
  unfold fetch_github_events.
  destruct (stop_at_entry env); simpl; [discriminate|].
  destruct (try_block strptime env m) as [[s|x] m1]; simpl; [|discriminate].
  by intros ->.
Qed.

(** C1: when a poll cycle runs to the end of its [try] block (the batch
    is appended, then the store is pruned), every record of the store is
    at least as recent as the cutoff [now - EVENT_RETENTION_MINUTES], [now]
    being the clock read by the pruning. *)
Theorem retention_after_cycle (env : environment) (m : memory) :
  cycle_status (fst (fetch_github_events strptime env m)) = Completed ->
  Forall (fun e => created_at e >= now env - minutes EVENT_RETENTION_MINUTES)
         (store (snd (fetch_github_events strptime env m))).
Proof.
  intros H. apply fetch_completed in H as (_ & H & ->).
  apply try_block_completed in H as (evs & _ & ->).
  rewrite store_prune. apply List.Forall_forall. intros e He.
  apply filter_In in He as [_ He]. lia.
Qed.

(** The memory a poll cycle ends with when the feed answers with something
    iterable: the accepted records are appended and, unless an element
    raised, the store is pruned. *)
Lemma try_block_iterable (env : environment) (m : memory) (evs : list raw_event) :
  feed env = Json (Iterable evs) ->
  let m1 := append_store m (accepted strptime evs) in
  (fst (try_block strptime env m) = Ok Completed /\
   fst (for_each evs (process_event strptime) m) = Ok tt /\
   snd (try_block strptime env m) = snd (prune (now env) m1)) \/
  (exists x, fst (try_block strptime env m) = Raise x /\
             fst (for_each evs (process_event strptime) m) = Raise x /\
             snd (try_block strptime env m) = m1).
Proof.
  intros Hfeed m1. unfold try_block, bind. rewrite Hfeed; simpl.
  pose proof (for_each_process_event evs m) as Hm1.
  destruct (for_each evs (process_event strptime) m) as [[[]|x] m2];
    cbn [fst snd] in *; subst m2.
  - by left.
  - right. by exists x.
Qed.

Lemma well_formed_prune (t : datetime) (m : memory) :
  well_formed (snd (prune t m)).
Proof.
  unfold well_formed, prune, bind, load_events, items, new_list, assign_events;
    simpl.
  rewrite length_app; simpl. lia.
Qed.

(** A poll cycle never leaves the global [events] without its list. *)
Lemma well_formed_fetch (env : environment) (m : memory) :
  well_formed m -> well_formed (snd (fetch_github_events strptime env m)).
Proof.
  intros Hwf. unfold fetch_github_events.
  destruct (stop_at_entry env); [done|].
  destruct (try_block strptime env m) as [r m1] eqn:Htry; cbn [snd].
  destruct (feed env) as [| |[msg|evs|]] eqn:Hfeed;
    try (unfold try_block, bind in Htry; rewrite Hfeed in Htry;
         simpl in Htry; injection Htry as <- <-; exact Hwf).
  pose proof (try_block_iterable env m evs Hfeed) as H. rewrite Htry in H.
  cbn [fst snd] in H.
  destruct H as [(_ & _ & ->) | (x & _ & _ & ->)].
  - apply well_formed_prune.
  - by apply well_formed_append_store.
Qed.

(** C6: when [requests.get] raises, when [response.json()] raises, or when
    the answer is a dictionary with a ["message"] key, the poll cycle leaves
    the memory, and so the event store, exactly as it was; the cycle itself
    ends without an exception, and the metric functions return afterwards
    what they returned before: [average_pr_time] and [top_repos] a value,
    [count_events] the same value, or the same error when its window cannot
    be computed. *)
Theorem failed_fetch_leaves_store (env : environment) (m : memory) :
  feed_fails (feed env) ->
  let m' := snd (fetch_github_events strptime env m) in
  m' = m /\
  store m' = store m /\
  cycle_status (fst (fetch_github_events strptime env m)) <> Completed /\
  forall (repo_name : string) (t : datetime) (offset_minutes top_n : Z),
    (exists v, fst (average_pr_time repo_name m') = Ok v /\
               fst (average_pr_time repo_name m) = Ok v) /\
    fst (count_events t offset_minutes m') = fst (count_events t offset_minutes m) /\
    (exists v, fst (top_repos top_n m') = Ok v /\
               fst (top_repos top_n m) = Ok v).
Proof.
  intros Hfail m'.
  assert (Hm : m' = m /\
               cycle_status (fst (fetch_github_events strptime env m)) <> Completed).
  { subst m'. unfold fetch_github_events.
    destruct (stop_at_entry env); [by split|].
    unfold try_block, bind.
    destruct Hfail as [-> | [-> | [msg ->]]]; by split. }
  destruct Hm as [-> Hst]. repeat split; try done.
  - rewrite average_pr_time_eq. by eexists.
  - rewrite top_repos_eq. by eexists.
Qed.

(** C7: an invocation that finds [stop_event] set when it starts calls no
    feed, leaves the memory as it was and starts no timer, so that the chain
    of poll cycles ends there with the store unchanged, whatever cycles
    could have followed. *)
Theorem stop_ends_polling (env : environment) (m : memory)
  (envs : list environment) :
  stop_at_entry env = true ->
  fetch_github_events strptime env m
  = ({| cycle_status := Stopped; fetched := false; rescheduled := false |}, m) /\
  run strptime (env :: envs) m = m /\
  store (run strptime (env :: envs) m) = store m.
Proof.
  intros Hstop.
  assert (H : fetch_github_events strptime env m
              = ({| cycle_status := Stopped; fetched := false;
                    rescheduled := false |}, m)).
  { unfold fetch_github_events. by rewrite Hstop. }
  split; [done|]. simpl. by rewrite H.
Qed.

Lemma of_interest_In (ty : string) :
  of_interest ty = true -> In ty EVENTS_OF_INTEREST.
Proof.
  unfold of_interest. intros H. apply existsb_exists in H as (k & Hk & Heq).
  apply String.eqb_eq in Heq. by subst.
Qed.

Lemma Forall_store_append_store (P : event -> Prop) (m : memory) (l : list event) :
  Forall P (store m) -> Forall P l -> Forall P (store (append_store m l)).
Proof.
  intros Hm Hl. destruct (decide (well_formed m)) as [Hwf|Hwf].
  - rewrite store_append_store by done. by apply Forall_app.
  - by rewrite store_append_store_dangling.
Qed.

Lemma Forall_filter_bool {A} (P : A -> Prop) (f : A -> bool) (l : list A) :
  Forall P l -> Forall P (List.filter f l).
Proof.
  rewrite !List.Forall_forall. intros H x Hx.
  apply filter_In in Hx as [Hx _]. by apply H.
Qed.

Lemma fetch_keeps_interest (env : environment) (m : memory) :
  Forall (fun e => of_interest (type e) = true) (store m) ->
  Forall (fun e => of_interest (type e) = true)
         (store (snd (fetch_github_events strptime env m))).
Proof.
  intros Hm. unfold fetch_github_events.
  destruct (stop_at_entry env); [done|].
  destruct (try_block strptime env m) as [r m1] eqn:Htry; cbn [snd].
  destruct (feed env) as [| |[msg|evs|]] eqn:Hfeed;
    try (unfold try_block, bind in Htry; rewrite Hfeed in Htry;
         simpl in Htry; injection Htry as <- <-; exact Hm).
  pose proof (try_block_iterable env m evs Hfeed) as H. rewrite Htry in H.
  cbn [fst snd] in H.
  destruct H as [(_ & _ & ->) | (x & _ & _ & ->)].
  - rewrite store_prune. apply Forall_filter_bool.
    apply Forall_store_append_store; [done | apply accepted_of_interest].
  - apply Forall_store_append_store; [done | apply accepted_of_interest].
Qed.

Lemma run_keeps_interest (envs : list environment) (m : memory) :
  Forall (fun e => of_interest (type e) = true) (store m) ->
  Forall (fun e => of_interest (type e) = true) (store (run strptime envs m)).
Proof.
  revert m; induction envs as [|env envs IH]; intros m Hm; [done|].
  simpl. pose proof (fetch_keeps_interest env m Hm) as H.
  destruct (fetch_github_events strptime env m) as [o m1]; cbn [snd] in H.
  destruct (rescheduled o); [by apply IH | done].
Qed.

(** C8: starting from the empty store of module load, after any sequence
    of poll cycles (completed, failed or stopped, whatever the feed
    answered) every record of the store has a kind that belongs to
    [EVENTS_OF_INTEREST]. *)
Theorem store_kinds_of_interest (envs : list environment) :
  Forall (fun e => In (type e) EVENTS_OF_INTEREST)
         (store (run strptime envs initial_memory)).
Proof.
  eapply Forall_impl; [apply run_keeps_interest; constructor|].
  intros e He. by apply of_interest_In.
Qed.
End PollerFacts.

(** ** Readers that run during a poll cycle *)

Lemma last_cons {A} (a d : A) (l : list A) :
  List.last (a :: l) d = List.last l a.
Proof.
  revert a d; induction l as [|b l IH]; intros a d; [done|].
  change (List.last (a :: b :: l) d) with (List.last (b :: l) d).
  by rewrite !IH.
Qed.

Lemma loop_trace_last (body : raw_event -> M unit) (evs : list raw_event)
  (m : memory) :
  List.last (loop_trace body evs m) m = snd (for_each evs body m).
Proof.
  revert m; induction evs as [|ev evs IH]; intros m; [done|].
  cbn [loop_trace for_each]. unfold bind.
  destruct (body ev m) as [[[]|x] m1]; [|done].
  rewrite last_cons. apply IH.
Qed.

Section ReaderFacts.
Variable strptime : string -> option Z.

(** The trace ends with the memory that the cycle returns. *)
Lemma cycle_trace_last (env : environment) (m : memory) :
  List.last (cycle_trace strptime env m) m
  = snd (fetch_github_events strptime env m).
Proof.
  unfold cycle_trace, fetch_github_events.
  destruct (stop_at_entry env); [done|].
  destruct (feed env) as [| |[msg|evs|]] eqn:Hfeed;
    try (unfold try_block, bind; rewrite Hfeed; reflexivity).
  rewrite last_cons.
  pose proof (loop_trace_last (process_event strptime) evs m) as Hlast.
  pose proof (for_each_process_event strptime evs m) as Hacc.
  destruct (try_block_iterable strptime env m evs Hfeed)
    as [(Hr & Hloop & Hm) | (x & Hr & Hloop & Hm)];
    destruct (try_block strptime env m) as [r m1]; cbn [fst snd] in *; subst;
    destruct (for_each evs (process_event strptime) m) as [[[]|y] m2];
    cbn [fst snd] in *; try discriminate.
  - rewrite List.last_last. by rewrite Hacc.
  - by rewrite app_nil_r, Hlast.
Qed.

Lemma loop_trace_prefix (evs : list raw_event) (m m' : memory) :
  In m' (loop_trace (process_event strptime) evs m) ->
  exists k, m' = append_store m (firstn k (accepted strptime evs)).
Proof.
  revert m; induction evs as [|ev evs IH]; intros m; [done|].
  cbn [loop_trace].
  destruct (process_event_cases strptime ev m)
    as [(e & -> & _ & Hacc) | [(-> & Hacc) | (x & -> & Hacc)]]; rewrite Hacc.
  - intros [<- | Hin].
    + by exists 1%nat.
    + apply IH in Hin as [k ->]. exists (S k).
      apply (append_store_app m [e]).
  - intros [<- | Hin].
    + exists 0%nat. by rewrite append_store_nil.
    + by apply IH.
  - intros [<- | []]. exists 0%nat. by rewrite append_store_nil.
Qed.

(** C3, as the code has it: a reader that runs during a poll cycle sees
    the records that were stored before the cycle followed by the first
    [k] records of the batch, for some [k], in the order of the feed, or
    sees the pruned store that the cycle ends with. *)
Theorem reader_sees_prefix_of_batch (env : environment) (m m' : memory) :
  well_formed m ->
  In m' (cycle_trace strptime env m) ->
  (exists k, store m' = store m ++ firstn k (cycle_batch strptime env)) \/
  store m'
  = List.filter (fun e => created_at e >=? now env - minutes EVENT_RETENTION_MINUTES)
                (store m ++ cycle_batch strptime env).
Proof.
  intros Hwf. unfold cycle_trace, cycle_batch.
  assert (Hsame : In m' [m] ->
                  exists k, store m' = store m ++ firstn k (@nil event)).
  { intros [<- | []]. exists 0%nat. by rewrite app_nil_r. }
  destruct (stop_at_entry env); [by left; apply Hsame|].
  destruct (feed env) as [| |[msg|evs|]] eqn:Hfeed; try (by left; apply Hsame).
  intros [<- | Hin].
  { left. exists 0%nat. by rewrite app_nil_r. }
  apply in_app_or in Hin as [Hin | Hin].
  - apply loop_trace_prefix in Hin as [k ->].
    left. exists k. by apply store_append_store.
  - pose proof (for_each_process_event strptime evs m) as Hm1.
    destruct (for_each evs (process_event strptime) m) as [[[]|x] m1];
      cbn [snd] in Hm1; [|done].
    destruct Hin as [<- | []]. right.
    by rewrite store_prune, Hm1, store_append_store.
Qed.
End ReaderFacts.

(** ** The mean interval between pull requests *)

Lemma time_diffs_gaps (s : list event) :
  time_diffs s = map total_seconds (gaps (map created_at s)).
Proof.
  unfold time_diffs. induction s as [|x s IH]; [done|].
  destruct s as [|y s]; [done|].
  replace (length (x :: y :: s) - 1)%nat with (S (length (y :: s) - 1))
    by (simpl; lia).
  change (gaps (map created_at (x :: y :: s)))
    with ((created_at y - created_at x) :: gaps (map created_at (y :: s))).
  cbn [seq List.map] in *. f_equal.
  rewrite <- IH, <- seq_shift, List.map_map.
  apply List.map_ext_in. intros i Hi. apply in_seq in Hi.
  replace (S i - 1)%nat with (S (i - 1)) by lia. done.
Qed.

Lemma sum_fold_right (qs : list Q) : (sum qs == fold_right Qplus 0 qs)%Q.
Proof.
  unfold sum.
  assert (H : forall a, (fold_left Qplus qs a == a + fold_right Qplus 0 qs)%Q).
  { induction qs as [|q qs IH]; intros a; simpl.
    - by rewrite Qplus_0_r.
    - rewrite IH. ring. }
  rewrite H. apply Qplus_0_l.
Qed.

Lemma gaps_nonneg (ts : list Z) :
  StronglySorted Z.le ts -> Forall (fun d => 0 <= d) (gaps ts).
Proof.
  induction 1 as [|t ts Hs IH Ht]; [constructor|].
  destruct ts as [|t' ts]; [constructor|].
  cbn [gaps]. constructor; [|done].
  apply Forall_inv in Ht. lia.
Qed.

Lemma fold_right_Qplus_nonneg (qs : list Q) :
  Forall (fun q => (0 <= q)%Q) qs -> (0 <= fold_right Qplus 0 qs)%Q.
Proof.
  induction 1 as [|q qs Hq _ IH]; simpl; [apply Qle_refl|].
  replace 0%Q with (0 + 0)%Q by reflexivity. by apply Qplus_le_compat.
Qed.

Lemma by_created_at_total (x y : event) :
  by_created_at x y = false -> by_created_at y x = true.
Proof. unfold by_created_at. lia. Qed.

Lemma sorted_by_created_at (l : list event) :
  StronglySorted Z.le (map created_at (stable_sort by_created_at l)).
Proof.
  apply Sorted_StronglySorted; [intros x y z; lia|].
  pose proof (stable_sort_sorted by_created_at by_created_at_total l) as H.
  induction H as [|x s Hs IH Hx]; [constructor|].
  cbn [List.map]. constructor; [done|].
  destruct Hx as [|y s' Hy]; constructor. unfold by_created_at in Hy. lia.
Qed.

Lemma StronglySorted_created_at (l : list event) :
  StronglySorted Z.le (map created_at l) ->
  StronglySorted (fun a b => created_at a <= created_at b) l.
Proof.
  induction l as [|x l IH]; [constructor|].
  cbn [List.map]. intros H. apply StronglySorted_inv in H as [Hl Hx].
  constructor; [by apply IH|].
  rewrite List.Forall_forall in *. intros y Hy. apply Hx. by apply in_map.
Qed.

Lemma is_pr_of_spec (repo_name : string) (e : event) :
  is_pr_of repo_name e = true <->
  type e = "PullRequestEvent" /\ repo e = repo_name.
Proof.
  unfold is_pr_of. rewrite andb_true_iff, !String.eqb_eq. done.
Qed.

(** C2: [average_pr_time] selects the [PullRequestEvent] records of the
    repository, sorts them by ascending timestamp and returns, without
    raising, [None] when fewer than two were selected and otherwise the
    arithmetic mean of the consecutive differences, in seconds; for
    records at [t0], [t0 + 10 s] and [t0 + 30 s] the result is 15. *)
Theorem average_pr_time_correct (repo_name : string) (m : memory) (t0 : datetime) :
  let selected := List.filter (is_pr_of repo_name) (store m) in
  exists (sorted : list event) (q : Q),
    Permutation sorted selected /\
    StronglySorted (fun a b => created_at a <= created_at b) sorted /\
    fst (average_pr_time repo_name m)
    = Ok (if (length selected <? 2)%nat then None else Some q) /\
    (q == arithmetic_mean (intervals_seconds (map created_at sorted)))%Q /\
    (Permutation (map created_at selected)
                 [t0; t0 + 10 * 1000000; t0 + 30 * 1000000] ->
     fst (average_pr_time repo_name m) = Ok (Some q) /\ (q == 15)%Q).
Proof.
  intros selected. rewrite average_pr_time_eq. fold selected. cbn zeta.
  set (sorted := stable_sort by_created_at selected).
  exists sorted, (sum (time_diffs sorted)
                  / inject_Z (Z.of_nat (length (time_diffs sorted))))%Q.
  assert (Hperm : Permutation sorted selected) by apply stable_sort_perm.
  assert (Hmean : (sum (time_diffs sorted)
                   / inject_Z (Z.of_nat (length (time_diffs sorted)))
                   == arithmetic_mean (intervals_seconds (map created_at sorted)))%Q).
  { unfold arithmetic_mean, intervals_seconds.
    rewrite sum_fold_right, time_diffs_gaps. reflexivity. }
  split; [done|]. split.
  { apply StronglySorted_created_at, sorted_by_created_at. }
  cbn [fst]. unfold sorted at 1. rewrite stable_sort_length.
  split; [done|]. split; [done|].
  intros Hts.
  assert (Heq : map created_at sorted = [t0; t0 + 10 * 1000000; t0 + 30 * 1000000]).
  { apply (Sorted_unique Z.le).
    - apply StronglySorted_Sorted, sorted_by_created_at.
    - repeat constructor; lia.
    - by rewrite <- Hts, Hperm. }
  split.
  - apply Permutation_length in Hts. rewrite length_map in Hts.
    by rewrite (Permutation_length Hperm), Hts.
  - rewrite Hmean, Heq. unfold arithmetic_mean, intervals_seconds; cbn [gaps].
    replace (t0 + 10 * 1000000 - t0) with 10000000 by lia.
    replace (t0 + 30 * 1000000 - (t0 + 10 * 1000000)) with 20000000 by lia.
    reflexivity.
Qed.

(** C10: a value returned by [average_pr_time] is not negative. *)
Theorem average_pr_time_nonneg (repo_name : string) (m : memory) (q : Q) :
  fst (average_pr_time repo_name m) = Ok (Some q) -> (0 <= q)%Q.
Proof.
  rewrite average_pr_time_eq. cbn [fst].
  set (s := stable_sort by_created_at _).
  destruct (length s <? 2)%nat; [discriminate|].
  intros [= <-]. unfold Qdiv. apply Qmult_le_0_compat.
  - rewrite sum_fold_right, time_diffs_gaps.
    apply fold_right_Qplus_nonneg, Forall_map.
    eapply Forall_impl; [apply gaps_nonneg, sorted_by_created_at|].
    intros d Hd. unfold total_seconds, Qle; simpl in *. lia.
  - apply Qinv_le_0_compat. unfold Qle; simpl. lia.
Qed.

(** ** Counters *)

Lemma counter_get_add (k k' : string) (c : counter) :
  counter_get (counter_add k c) k'
  = if String.eqb k' k then Some (S (count_of c k')) else counter_get c k'.
Proof.
  unfold count_of. induction c as [|[k0 n] c IH]; simpl.
  - by destruct (String.eqb k' k).
  - destruct (String.eqb_spec k k0) as [->|Hk]; simpl.
    + by destruct (String.eqb_spec k' k0).
    + destruct (String.eqb_spec k' k0) as [->|Hk'].
      * destruct (String.eqb_spec k0 k); [congruence | done].
      * apply IH.
Qed.

Lemma counter_add_keys (k k' : string) (c : counter) :
  In k' (map fst (counter_add k c)) <-> k' = k \/ In k' (map fst c).
Proof.
  induction c as [|[k0 n] c IH]; simpl; [intuition|].
  destruct (String.eqb_spec k k0) as [->|Hk]; simpl; [intuition|].
  rewrite IH. intuition.
Qed.

Lemma counter_add_NoDup (k : string) (c : counter) :
  List.NoDup (map fst c) -> List.NoDup (map fst (counter_add k c)).
Proof.
  induction c as [|[k0 n] c IH]; simpl; intros Hc.
  - apply List.NoDup_cons_iff. split; [intros [] | constructor].
  - apply List.NoDup_cons_iff in Hc as [Hk0 Hc].
    destruct (String.eqb_spec k k0) as [->|Hk]; simpl;
      apply List.NoDup_cons_iff; split; auto.
    rewrite counter_add_keys. intros [Heq | Hin]; [congruence | done].
Qed.

Lemma counter_add_ok (k : string) (c : counter) :
  counter_ok c -> counter_ok (counter_add k c).
Proof.
  intros [Hnd Hpos]. split; [by apply counter_add_NoDup|].
  intros k' n. rewrite counter_get_add.
  destruct (String.eqb k' k); [intros [= <-]; lia | apply Hpos].
Qed.

Lemma Counter_from (keys : list string) (c : counter) :
  counter_ok c ->
  counter_ok (fold_left (fun c k => counter_add k c) keys c) /\
  forall k, count_of (fold_left (fun c k => counter_add k c) keys c) k
            = (count_of c k + occurrences k keys)%nat.
Proof.
  revert c; induction keys as [|k0 keys IH]; intros c Hc; simpl.
  - split; [done | intros k; unfold occurrences; simpl; lia].
  - destruct (IH (counter_add k0 c) (counter_add_ok k0 c Hc)) as [Hok Hcount].
    split; [done|]. intros k. rewrite Hcount.
    unfold count_of at 1, occurrences. rewrite counter_get_add; simpl.
    rewrite (String.eqb_sym k0 k).
    destruct (String.eqb k k0); unfold count_of; simpl; lia.
Qed.

Lemma counter_get_Counter (keys : list string) (k : string) :
  counter_get (Counter keys) k
  = if (occurrences k keys =? 0)%nat then None else Some (occurrences k keys).
Proof.
  destruct (Counter_from keys []) as [[_ Hpos] Hcount].
  { split; [constructor | done]. }
  fold (Counter keys) in *. specialize (Hcount k). specialize (Hpos k).
  unfold count_of in Hcount; simpl in Hcount.
  destruct (counter_get (Counter keys) k) as [n|]; simpl in Hcount; subst.
  - specialize (Hpos _ eq_refl).
    destruct (Nat.eqb_spec (occurrences k keys) 0); [lia | done].
  - by rewrite <- Hcount.
Qed.

Lemma Counter_NoDup (keys : list string) : List.NoDup (map fst (Counter keys)).
Proof.
  destruct (Counter_from keys []) as [[H _] _]; [|done].
  split; [constructor | done].
Qed.

Lemma counter_get_In (c : counter) (k : string) (n : nat) :
  List.NoDup (map fst c) -> (In (k, n) c <-> counter_get c k = Some n).
Proof.
  induction c as [|[k0 n0] c IH]; simpl; intros Hc; [by split|].
  apply List.NoDup_cons_iff in Hc as [Hk0 Hc].
  destruct (String.eqb_spec k k0) as [->|Hk].
  - split; [|intros [= ->]; by left].
    intros [[= ->]|Hin]; [done|].
    destruct Hk0. apply in_map_iff. by exists (k0, n).
  - rewrite <- IH by done. split; [intros [[= -> ->]|Hin] | intros Hin];
      [done | done | by right].
Qed.

Lemma occurrences_map {A} (f : A -> string) (k : string) (l : list A) :
  occurrences k (map f l)
  = length (List.filter (fun x => String.eqb (f x) k) l).
Proof.
  unfold occurrences. induction l as [|x l IH]; simpl; [done|].
  destruct (String.eqb (f x) k); simpl; by rewrite IH.
Qed.

Lemma filter_filter_bool {A} (f g : A -> bool) (l : list A) :
  List.filter f (List.filter g l) = List.filter (fun x => f x && g x) l.
Proof.
  induction l as [|x l IH]; simpl; [done|].
  destruct (g x) eqn:Hg; simpl; rewrite ?Hg, ?andb_true_r, ?andb_false_r, IH;
    by destruct (f x).
Qed.

(** ** Windowed counts and the ranking of repositories *)

(** C4, as the code has it: when the window can be computed (the
    offset is a [timedelta] and [now - offset_minutes] a [datetime]), the
    counter returned by [count_events] maps a kind to the number of stored
    records of that kind whose timestamp is at least [now - offset_minutes],
    and has no key for a kind without such a record; with three pull
    requests inside a window of ten minutes and two outside, the count of
    ["PullRequestEvent"] is 3. *)
Theorem count_events_correct (t : datetime) (offset_minutes : Z) (m : memory)
  (kind : string) :
  window_in_range t offset_minutes ->
  let matching :=
    length (List.filter (fun e => String.eqb (type e) kind
                                  && (created_at e >=? t - minutes offset_minutes))
                        (store m)) in
  (exists c, fst (count_events t offset_minutes m) = Ok c /\
             List.NoDup (map fst c) /\
             (In kind (map fst c) <-> (0 < matching)%nat) /\
             counter_get c kind
             = if (matching =? 0)%nat then None else Some matching) /\
  (window_in_range t 10 ->
   exists c, fst (count_events t 10 (window_example t)) = Ok c /\
             counter_get c "PullRequestEvent" = Some 3%nat).
Proof.
  intros Hw matching.
  assert (Hget : forall t' w m' k,
    counter_get (Counter (map type
      (List.filter (fun e => created_at e >=? t' - minutes w) (store m')))) k
    = let n := length (List.filter
                 (fun e => String.eqb (type e) k && (created_at e >=? t' - minutes w))
                 (store m')) in
      if (n =? 0)%nat then None else Some n).
  { intros t' w m' k. by rewrite counter_get_Counter, occurrences_map,
      filter_filter_bool. }
  split.
  - rewrite count_events_eq by done; cbn [fst]. eexists; split; [reflexivity|].
    split; [apply Counter_NoDup|]. split; [|apply Hget].
    pose proof (Hget t offset_minutes m kind) as Hk. cbn zeta in Hk.
    fold matching in Hk.
    set (c := Counter _) in *. split.
    + intros Hin. apply in_map_iff in Hin as ([k n] & Heq & Hin).
      simpl in Heq; subst k.
      apply counter_get_In in Hin; [|apply Counter_NoDup]. simpl in Hin.
      rewrite Hin in Hk. destruct (Nat.eqb_spec matching 0); [done | lia].
    + intros Hpos. destruct (Nat.eqb_spec matching 0); [lia|].
      apply counter_get_In in Hk; [|apply Counter_NoDup].
      apply in_map_iff. by exists (kind, matching).
  - intros H10. rewrite count_events_eq by done; cbn [fst].
    eexists; split; [reflexivity|].
    rewrite Hget. unfold window_example, store, contents, minutes; simpl.
    repeat match goal with
           | |- context [?a >=? ?b] =>
               first [ replace (a >=? b) with true by lia
                     | replace (a >=? b) with false by lia ]
           end.
    reflexivity.
Qed.

Lemma most_common_eq (n : Z) (c : counter) :
  most_common n c = firstn (Z.to_nat n) (stable_sort by_count_desc c).
Proof. reflexivity. Qed.

Lemma sorted_by_count_desc (c : counter) :
  StronglySorted (fun a b => (snd b <= snd a)%nat) (stable_sort by_count_desc c).
Proof.
  apply Sorted_StronglySorted; [intros x y z; lia|].
  assert (Htotal : forall x y, by_count_desc x y = false -> by_count_desc y x = true).
  { unfold by_count_desc. intros x y Hxy.
    apply Nat.leb_gt in Hxy. apply Nat.leb_le. lia. }
  pose proof (stable_sort_sorted by_count_desc Htotal c) as H.
  induction H as [|x s Hs IH Hx]; [constructor|].
  constructor; [done|].
  destruct Hx as [|y s' Hy]; constructor. by apply Nat.leb_le in Hy.
Qed.

(** C5: [top_repos] returns the first [top_n] entries (none when [top_n]
    is not positive) of a ranking that has one entry for each repository
    with at least one [PullRequestEvent] record, the entry of a repository
    holding the exact number of its [PullRequestEvent] records, and that
    is sorted by descending count. *)
Theorem top_repos_correct (top_n : Z) (m : memory) :
  let pr_count (r : string) := length (List.filter (is_pr_of r) (store m)) in
  exists ranking result,
    fst (top_repos top_n m) = Ok result /\
    result = firstn (Z.to_nat top_n) ranking /\
    (length result <= Z.to_nat top_n)%nat /\
    List.NoDup (map fst ranking) /\
    (forall r c, In (r, c) ranking <-> c = pr_count r /\ (0 < c)%nat) /\
    StronglySorted (fun a b => (snd b <= snd a)%nat) ranking /\
    StronglySorted (fun a b => (snd b <= snd a)%nat) result /\
    (forall r c, In (r, c) result -> c = pr_count r /\ (0 < c)%nat).
Proof.
  intros pr_count. rewrite top_repos_eq; cbn [fst]. cbn zeta.
  set (prs := List.filter _ (store m)). rewrite most_common_eq.
  set (c := Counter (map repo prs)).
  set (ranking := stable_sort by_count_desc c).
  assert (Hperm : Permutation ranking c) by apply stable_sort_perm.
  assert (Hin : forall r n, In (r, n) ranking <-> n = pr_count r /\ (0 < n)%nat).
  { intros r n.
    assert (Hmem : In (r, n) ranking <-> In (r, n) c)
      by (split; apply Permutation_in; [done | by symmetry]).
    rewrite Hmem.
    rewrite counter_get_In by apply Counter_NoDup.
    unfold c. rewrite counter_get_Counter, occurrences_map.
    unfold prs. rewrite filter_filter_bool.
    assert (Hlen : length (List.filter
                     (fun x => String.eqb (repo x) r
                               && String.eqb (type x) "PullRequestEvent") (store m))
                   = pr_count r).
    { unfold pr_count. f_equal. apply List.filter_ext. intros e.
      unfold is_pr_of. apply andb_comm. }
    rewrite Hlen.
    destruct (Nat.eqb_spec (pr_count r) 0); split;
      [done | lia | intros [= <-]; lia | intros [-> _]; done]. }
  exists ranking, (firstn (Z.to_nat top_n) ranking).
  split; [done|]. split; [done|].
  split; [apply firstn_le_length|].
  split. { rewrite Hperm. apply Counter_NoDup. }
  split; [done|].
  split; [apply sorted_by_count_desc|].
  split.
  - apply (StronglySorted_app_1_l _ _ (skipn (Z.to_nat top_n) ranking)).
    rewrite firstn_skipn. apply sorted_by_count_desc.
  - intros r n Hr. apply Hin.
    rewrite <- (firstn_skipn (Z.to_nat top_n) ranking). apply in_or_app. by left.
Qed.

(** ** The sample cycle *)

(** C3 does not hold: between the two appends of the sample cycle the
    store holds the first record of the batch without the second. *)
Lemma reader_sees_partial_batch :
  In sample_partial (cycle_trace sample_strptime sample_env initial_memory) /\
  store sample_partial = [watch "a/x" (1704067200 * 1000000)] /\
  cycle_batch sample_strptime sample_env
  = [watch "a/x" (1704067200 * 1000000);
     {| type := "IssuesEvent"; repo := "b/y";
        created_at := 1704067210 * 1000000 |}] /\
  ~ readers_see_whole_batches sample_strptime sample_env initial_memory.
Proof.
  assert (Hin : In sample_partial
                   (cycle_trace sample_strptime sample_env initial_memory)).
  { vm_compute. right; left. reflexivity. }
  split; [exact Hin|]. split; [reflexivity|]. split; [reflexivity|].
  intros Hall. destruct (Hall sample_partial Hin) as [H | [H | H]];
    vm_compute in H; discriminate H.
Qed.

(** A cycle that raises while it handles an element keeps the records
    appended before that element, and does not prune. *)
Lemma failed_element_keeps_earlier_records :
  fetch_github_events sample_strptime sample_broken_env initial_memory
  = ({| cycle_status := Failed ValueError; fetched := true; rescheduled := true |},
     sample_partial).
Proof. reflexivity. Qed.

Lemma retention_after_cycle_witness :
  cycle_status (fst (fetch_github_events sample_strptime sample_env initial_memory))
  = Completed /\
  Forall (fun e => created_at e >= now sample_env - minutes EVENT_RETENTION_MINUTES)
         (store (snd (fetch_github_events sample_strptime sample_env initial_memory))).
Proof.
  split; [reflexivity|].
  apply (retention_after_cycle sample_strptime sample_env initial_memory).
  reflexivity.
Defined.

Lemma average_pr_time_correct_witness :
  exists q, fst (average_pr_time "a/x" sample_store) = Ok (Some q) /\ (q == 15)%Q.
Proof.
  destruct (average_pr_time_correct "a/x" sample_store 0)
    as (sorted & q & _ & _ & _ & _ & H).
  exists q. apply H. apply perm_swap.
Defined.

Lemma reader_sees_prefix_of_batch_witness :
  well_formed initial_memory /\
  In sample_partial (cycle_trace sample_strptime sample_env initial_memory) /\
  ((exists k, store sample_partial
              = store initial_memory
                ++ firstn k (cycle_batch sample_strptime sample_env)) \/
   store sample_partial
   = List.filter
       (fun e => created_at e >=? now sample_env - minutes EVENT_RETENTION_MINUTES)
       (store initial_memory ++ cycle_batch sample_strptime sample_env)).
Proof.
  assert (Hwf : well_formed initial_memory) by (unfold well_formed; simpl; lia).
  assert (Hin : In sample_partial
                   (cycle_trace sample_strptime sample_env initial_memory))
    by (right; left; reflexivity).
  split; [exact Hwf|]. split; [exact Hin|].
  exact (reader_sees_prefix_of_batch sample_strptime sample_env initial_memory
           sample_partial Hwf Hin).
Defined.

Lemma failed_fetch_leaves_store_witness :
  feed_fails (feed sample_unreachable_env) /\
  snd (fetch_github_events sample_strptime sample_unreachable_env sample_store)
  = sample_store.
Proof.
  assert (Hfail : feed_fails (feed sample_unreachable_env)) by (left; reflexivity).
  split; [exact Hfail|].
  exact (proj1 (failed_fetch_leaves_store sample_strptime sample_unreachable_env
                  sample_store Hfail)).
Defined.

Lemma stop_ends_polling_witness :
  stop_at_entry sample_stopped_env = true /\
  run sample_strptime [sample_stopped_env; sample_env] sample_store = sample_store.
Proof.
  split; [reflexivity|].
  exact (proj1 (proj2 (stop_ends_polling sample_strptime sample_stopped_env
                         sample_store [sample_env] eq_refl))).
Defined.

Lemma average_pr_time_nonneg_witness :
  fst (average_pr_time "a/x" sample_store)
  = Ok (Some (30000000000000 # 2000000000000)) /\
  (0 <= 30000000000000 # 2000000000000)%Q.
Proof.
  split; [reflexivity|].
  apply (average_pr_time_nonneg "a/x" sample_store). reflexivity.
Defined.

(** ** The metrics on the sample stores *)

Example average_pr_time_sample :
  fst (average_pr_time "a/x" sample_store)
  = Ok (Some (30000000000000 # 2000000000000)) /\
  (30000000000000 # 2000000000000 == 15)%Q /\
  fst (average_pr_time "b/y" sample_store) = Ok None /\
  fst (average_pr_time "c/z" sample_store) = Ok None.
Proof. repeat split. Qed.

Example count_events_sample :
  fst (count_events 1704067215000000 10 (window_example 1704067215000000))
  = Ok [("PullRequestEvent", 3%nat); ("WatchEvent", 1%nat)].
Proof. reflexivity. Qed.

(** Repositories with the same count come in the order in which their
    first pull request is stored. *)
Example top_repos_sample :
  fst (top_repos 2 ranking_example) = Ok [("b/y", 5%nat); ("a/x", 5%nat)] /\
  fst (top_repos 5 ranking_example)
  = Ok [("b/y", 5%nat); ("a/x", 5%nat); ("c/z", 2%nat)] /\
  fst (top_repos 0 ranking_example) = Ok [] /\
  fst (top_repos (-3) ranking_example) = Ok [].
Proof. repeat split. Qed.

Example fetch_sample :
  fetch_github_events sample_strptime sample_env initial_memory
  = ({| cycle_status := Completed; fetched := true; rescheduled := true |},
     {| heap := [ [watch "a/x" 1704067200000000;
                   {| type := "IssuesEvent"; repo := "b/y";
                      created_at := 1704067210000000 |}];
                  [watch "a/x" 1704067200000000;
                   {| type := "IssuesEvent"; repo := "b/y";
                      created_at := 1704067210000000 |}] ];
        events := 1%nat |}).
Proof. reflexivity. Qed.

(** * Further properties of the poller *)

Lemma filter_app_bool {A} (f : A -> bool) (l1 l2 : list A) :
  List.filter f (l1 ++ l2) = List.filter f l1 ++ List.filter f l2.
Proof. apply List.filter_app. Qed.

Lemma filter_all_bool {A} (f : A -> bool) (l : list A) :
  List.Forall (fun x => f x = true) l -> List.filter f l = l.
Proof.
  induction 1 as [|x l Hx _ IH]; simpl; [done|]. by rewrite Hx, IH.
Qed.

Lemma filter_later_cutoff (c1 c2 : datetime) (l : list event) :
  c1 <= c2 ->
  List.filter (fun e => created_at e >=? c2)
              (List.filter (fun e => created_at e >=? c1) l)
  = List.filter (fun e => created_at e >=? c2) l.
Proof.
  intros Hc. rewrite filter_filter_bool. apply List.filter_ext.
  intros e. destruct (Z.geb_spec (created_at e) c2); simpl; lia.
Qed.

Lemma filter_earlier_cutoff (c1 c2 : datetime) (l : list event) :
  c2 <= c1 ->
  List.filter (fun e => created_at e >=? c2)
              (List.filter (fun e => created_at e >=? c1) l)
  = List.filter (fun e => created_at e >=? c1) l.
Proof.
  intros Hc. rewrite filter_filter_bool. apply List.filter_ext.
  intros e. destruct (Z.geb_spec (created_at e) c1); simpl; lia.
Qed.

Section MorePollerFacts.
Variable strptime : string -> option Z.

Lemma fetch_completed_store (env : environment) (m : memory) :
  well_formed m ->
  cycle_status (fst (fetch_github_events strptime env m)) = Completed ->
  store (snd (fetch_github_events strptime env m))
  = List.filter (fun e => created_at e >=? now env - minutes EVENT_RETENTION_MINUTES)
                (store m ++ cycle_batch strptime env).
Proof.
  intros Hwf H. apply fetch_completed in H as (Hstop & H & ->).
  apply try_block_completed in H as (evs & Hfeed & ->).
  unfold cycle_batch. rewrite Hstop, Hfeed, store_prune.
  by rewrite store_append_store.
Qed.

Lemma fetch_completed_well_formed (env : environment) (m : memory) :
  cycle_status (fst (fetch_github_events strptime env m)) = Completed ->
  well_formed (snd (fetch_github_events strptime env m)).
Proof.
  intros H. apply fetch_completed in H as (_ & H & ->).
  apply try_block_completed in H as (evs & _ & ->). apply well_formed_prune.
Qed.


(** X2: a poll cycle that completes leaves in the store exactly the
    records, old and new, that are not older than the cutoff, the old ones
    first and each group in the order it had. *)
Theorem completed_cycle_store (env : environment) (m : memory) :
  well_formed m ->
  cycle_status (fst (fetch_github_events strptime env m)) = Completed ->
  store (snd (fetch_github_events strptime env m))
  = List.filter (fun e => created_at e >=? now env - minutes EVENT_RETENTION_MINUTES)
                (store m)
    ++ List.filter (fun e => created_at e >=? now env - minutes EVENT_RETENTION_MINUTES)
                   (cycle_batch strptime env).
Proof.
  intros Hwf H. rewrite fetch_completed_store by done. apply filter_app_bool.
Qed.

(** X3: when the clock does not go back between two completed cycles,
    the store after the second one is what a single pruning at the second
    cutoff keeps of the old records and the two batches: a record dropped
    by the first cycle would have been dropped by the second. *)
Theorem completed_cycles_compose (env1 env2 : environment) (m : memory) :
  let m1 := snd (fetch_github_events strptime env1 m) in
  let m2 := snd (fetch_github_events strptime env2 m1) in
  well_formed m ->
  cycle_status (fst (fetch_github_events strptime env1 m)) = Completed ->
  cycle_status (fst (fetch_github_events strptime env2 m1)) = Completed ->
  now env1 <= now env2 ->
  store m2
  = List.filter (fun e => created_at e >=? now env2 - minutes EVENT_RETENTION_MINUTES)
                (store m ++ cycle_batch strptime env1 ++ cycle_batch strptime env2).
Proof.
  intros m1 m2 Hwf H1 H2 Hnow. subst m2.
  rewrite fetch_completed_store;
    [|by apply fetch_completed_well_formed | done].
  subst m1. rewrite fetch_completed_store by done.
  rewrite !filter_app_bool, !filter_later_cutoff by lia.
  by rewrite <- !app_assoc.
Qed.

(** X4: the poller does not recognise an event it has stored already:
    when two completed cycles receive the same feed and nothing is old
    enough to be pruned, every record of the batch is stored twice. *)
Theorem same_feed_is_stored_twice (env1 env2 : environment) (m : memory) :
  let m1 := snd (fetch_github_events strptime env1 m) in
  let m2 := snd (fetch_github_events strptime env2 m1) in
  let batch := cycle_batch strptime env1 in
  well_formed m ->
  cycle_status (fst (fetch_github_events strptime env1 m)) = Completed ->
  cycle_status (fst (fetch_github_events strptime env2 m1)) = Completed ->
  feed env2 = feed env1 ->
  List.Forall (fun e => created_at e >= now env1 - minutes EVENT_RETENTION_MINUTES
                        /\ created_at e >= now env2 - minutes EVENT_RETENTION_MINUTES)
              (store m ++ batch) ->
  store m2 = store m ++ batch ++ batch.
Proof.
  intros m1 m2 batch Hwf H1 H2 Hfeed Hrecent. subst m2.
  assert (Hbatch : cycle_batch strptime env2 = batch).
  { apply fetch_completed in H1 as (Hs1 & _). apply fetch_completed in H2 as (Hs2 & _).
    unfold batch, cycle_batch. by rewrite Hs1, Hs2, Hfeed. }
  rewrite fetch_completed_store;
    [|by apply fetch_completed_well_formed | done].
  subst m1. rewrite fetch_completed_store by done. rewrite Hbatch.
  rewrite (filter_all_bool _ (store m ++ batch)).
  - rewrite <- app_assoc. apply filter_all_bool.
    apply List.Forall_app in Hrecent as [Hm Hb].
    rewrite !List.Forall_app. repeat split;
      (eapply List.Forall_impl; [|eassumption]); intros e [_ He]; lia.
  - eapply List.Forall_impl; [|exact Hrecent]. intros e [He _]. lia.
Qed.

(** X5: as long as [stop_event] is not set, every poll cycle starts the
    timer of the next one, whatever the feed answers and whether the
    cycle completes or fails: the chain runs all the cycles. *)
Theorem polling_goes_on (envs : list environment) (m : memory) :
  List.Forall (fun env => stop_at_entry env = false /\ stop_at_exit env = false)
              envs ->
  run strptime envs m = all_cycles strptime envs m.
Proof.
  intros H. revert m. induction H as [|env envs [Hs He] _ IH]; intros m; [done|].
  cbn [run all_cycles fold_left]. fold (all_cycles strptime envs).
  destruct (fetch_github_events strptime env m) as [o m1] eqn:Hf.
  assert (Hr : rescheduled o = true).
  { unfold fetch_github_events in Hf. rewrite Hs in Hf.
    destruct (try_block strptime env m). injection Hf as <- _.
    simpl. by rewrite He. }
  rewrite Hr. apply IH.
Qed.

Lemma for_each_without_other_kinds (evs : list raw_event) (m : memory) :
  for_each (List.filter (fun ev => negb (of_other_kind ev)) evs)
           (process_event strptime) m
  = for_each evs (process_event strptime) m.
Proof.
  revert m; induction evs as [|ev evs IH]; intros m; [done|].
  cbn [List.filter]. destruct (of_other_kind ev) eqn:Hk; cbn [negb].
  - cbn [for_each]. unfold bind at 1.
    assert (Hev : process_event strptime ev m = (Ok tt, m)).
    { unfold of_other_kind in Hk. destruct ev as [[ty|] name created];
        simpl in Hk; [|discriminate].
      unfold process_event, bind; simpl.
      destruct (of_interest ty); [discriminate | done]. }
    rewrite Hev. apply IH.
  - cbn [for_each]. unfold bind.
    destruct (process_event strptime ev m) as [[[]|x] m1]; [apply IH | done].
Qed.

(** X6: the elements of the feed whose type is not of interest have no
    effect at all, even when their other fields are missing or their
    timestamp is malformed: the cycle ends with the same outcome and the
    same memory as on the feed without them. *)
Theorem other_kinds_are_ignored (env : environment) (m : memory) :
  fetch_github_events strptime (without_other_kinds env) m
  = fetch_github_events strptime env m.
Proof.
  unfold fetch_github_events, without_other_kinds; cbn [stop_at_entry stop_at_exit].
  destruct (stop_at_entry env); [done|].
  assert (Htry : try_block strptime
                   {| stop_at_entry := false;
                      feed := match feed env with
                              | Json (Iterable evs) =>
                                  Json (Iterable (List.filter
                                    (fun ev => negb (of_other_kind ev)) evs))
                              | f => f
                              end;
                      now := now env; stop_at_exit := stop_at_exit env |} m
                 = try_block strptime env m).
  { unfold try_block; cbn [feed now].
    destruct (feed env) as [| |[msg|evs|]]; try done.
    unfold bind at 1 3; cbn [requests_get_json ret].
    unfold bind at 1 3. by rewrite for_each_without_other_kinds. }
  by rewrite Htry.
Qed.
End MorePollerFacts.

(** * Timers and shutdown *)

Section ProcessFacts.
Variable strptime : string -> option Z.

Lemma step_pending (s s' : system) (o : occurrence) :
  step strptime s o = Some s' -> (pending s' <= pending s)%nat.
Proof.
  destruct o as [f t sig|]; simpl.
  - destruct (pending s) as [|n]; [discriminate|].
    destruct (fetch_github_events strptime _ (mem s)) as [out m].
    intros [= <-]; simpl. destruct (rescheduled out); lia.
  - intros [= <-]; simpl. lia.
Qed.

Lemma steps_pending (os : list occurrence) (s s' : system) :
  steps strptime s os = Some s' -> (pending s' <= pending s)%nat.
Proof.
  revert s; induction os as [|o os IH]; intros s; simpl.
  - intros [= <-]. lia.
  - destruct (step strptime s o) as [s1|] eqn:Hstep; [|discriminate].
    intros H. apply IH in H. apply step_pending in Hstep. lia.
Qed.

(** X7: from the first call of line 244 on, whatever the feed answers,
    whenever the timers fire and whenever [handle_shutdown] runs, there is
    never more than one invocation of [fetch_github_events] to come: two
    poll cycles never run at the same time. *)
Theorem at_most_one_pending_timer (f : response) (t : datetime)
  (os : list occurrence) (s : system) :
  steps strptime (boot strptime f t) os = Some s -> (pending s <= 1)%nat.
Proof.
  intros H. apply steps_pending in H.
  assert (Hboot : (pending (boot strptime f t) <= 1)%nat).
  { unfold boot. destruct (fetch_github_events strptime _ initial_memory) as [o m].
    simpl. destruct (rescheduled o); lia. }
  lia.
Qed.

Lemma step_stopped (s s' : system) (o : occurrence) :
  stop_event s = true ->
  step strptime s o = Some s' ->
  mem s' = mem s /\ stop_event s' = true /\
  (pending s' + fires [o] = pending s)%nat.
Proof.
  intros Hstop. destruct o as [f t sig|]; simpl.
  - destruct (pending s) as [|n]; [discriminate|].
    unfold fetch_github_events; simpl. rewrite Hstop; simpl.
    intros [= <-]; simpl. repeat split; unfold fires; simpl; lia.
  - intros [= <-]; simpl. repeat split; unfold fires; simpl; lia.
Qed.

Lemma steps_stopped (s s' : system) (os : list occurrence) :
  stop_event s = true ->
  steps strptime s os = Some s' ->
  mem s' = mem s /\
  stop_event s' = true /\
  (pending s' + fires os = pending s)%nat.
Proof.
  revert s; induction os as [|o os IH]; intros s Hstop; simpl.
  - intros [= <-]. repeat split; try done; unfold fires; simpl; lia.
  - destruct (step strptime s o) as [s1|] eqn:Hstep; [|discriminate].
    apply step_stopped in Hstep as (Hmem & Hstop1 & Hpend); [|done].
    intros H. apply IH in H as (Hm & Hs & Hp); [|done].
    rewrite Hm, Hmem. repeat split; try done.
    unfold fires in *; simpl in *.
    destruct o; simpl in *; lia.
Qed.

Lemma fetch_memory_exit_flag (f : response) (t : datetime) (b1 b2 : bool)
  (m : memory) :
  snd (fetch_github_events strptime
         {| stop_at_entry := false; feed := f; now := t; stop_at_exit := b1 |} m)
  = snd (fetch_github_events strptime
           {| stop_at_entry := false; feed := f; now := t; stop_at_exit := b2 |} m).
Proof.
  unfold fetch_github_events; cbn [stop_at_entry].
  assert (H : try_block strptime
                {| stop_at_entry := false; feed := f; now := t; stop_at_exit := b1 |} m
              = try_block strptime
                  {| stop_at_entry := false; feed := f; now := t; stop_at_exit := b2 |} m)
    by reflexivity.
  rewrite H. by destruct (try_block strptime _ m).
Qed.

(** X8: from the occurrence by the end of which [stop_event] is set
    ([handle_shutdown] has run before it, runs between two poll cycles, or
    runs while a poll cycle is under way), the flag stays set and every
    timer that fires ends without starting another one.  The memory is
    then, for good, the one that occurrence leaves: unchanged when no
    poll cycle was under way or when the cycle found the flag set, and
    otherwise what the cycle under way writes, which is what it would have
    written without the signal. *)
Theorem shutdown_freezes_store (s s' : system) (o : occurrence)
  (os : list occurrence) :
  stop_event s || handles_signal o = true ->
  steps strptime s (o :: os) = Some s' ->
  stop_event s' = true /\
  mem s' = memory_after strptime s o /\
  store (mem s') = store (memory_after strptime s o) /\
  (pending s' + fires (o :: os) = pending s)%nat.
Proof.
  intros Hsig. cbn [steps].
  destruct (step strptime s o) as [s1|] eqn:Hstep; [|discriminate].
  assert (H1 : stop_event s1 = true /\ mem s1 = memory_after strptime s o /\
               (pending s1 + fires [o] = pending s)%nat).
  { destruct o as [f t sig|]; simpl in *.
    - destruct (pending s) as [|n]; [discriminate|].
      destruct (stop_event s) eqn:Hstop; simpl in *.
      + unfold fetch_github_events in Hstep; simpl in Hstep.
        injection Hstep as <-; simpl. repeat split. unfold fires; simpl. lia.
      + subst sig.
        rewrite (fetch_memory_exit_flag f t false true).
        destruct (fetch_github_events strptime _ (mem s)) as [out m] eqn:Hf.
        injection Hstep as <-; simpl. repeat split.
        unfold fetch_github_events in Hf; simpl in Hf.
        destruct (try_block strptime _ (mem s)). injection Hf as <- _; simpl.
        unfold fires; simpl. lia.
    - injection Hstep as <-; simpl. repeat split. unfold fires; simpl. lia. }
  destruct H1 as (Hstop1 & Hmem1 & Hpend1).
  intros H. apply steps_stopped in H as (Hm & Hs & Hp); [|done].
  rewrite Hm, Hmem1. repeat split; try done.
  unfold fires in *; simpl in *. destruct o; simpl in *; lia.
Qed.
End ProcessFacts.

Lemma shutdown_freezes_store_witness :
  let stored := [watch "a/x" 1704067200000000;
                 {| type := "IssuesEvent"; repo := "b/y";
                    created_at := 1704067210000000 |}] in
  let s := {| mem := initial_memory; stop_event := false; pending := 1 |} in
  let o := TimerFires (Json (Iterable sample_feed)) 1704067215000000 true in
  let os := [Shutdown] in
  let s' := {| mem := {| heap := [stored; stored]; events := 1%nat |};
               stop_event := true; pending := 0 |} in
  stop_event s || handles_signal o = true /\
  steps sample_strptime s (o :: os) = Some s' /\
  mem s' = memory_after sample_strptime s o /\
  store (mem s') = stored.
Proof.
  intros stored s o os s'.
  assert (Hsig : stop_event s || handles_signal o = true) by reflexivity.
  assert (Hsteps : steps sample_strptime s (o :: os) = Some s') by reflexivity.
  split; [exact Hsig|]. split; [exact Hsteps|].
  split; [|reflexivity].
  exact (proj1 (proj2 (shutdown_freezes_store sample_strptime s s' o os Hsig Hsteps))).
Defined.

Lemma at_most_one_pending_timer_witness :
  let os := [TimerFires RequestFailed 1704067215000000 false;
             TimerFires (Json (Iterable sample_feed)) 1704067245000000 true] in
  let stored := [watch "a/x" 1704067200000000;
                 {| type := "IssuesEvent"; repo := "b/y";
                    created_at := 1704067210000000 |}] in
  let s := {| mem := {| heap := [[]; stored; stored]; events := 2%nat |};
              stop_event := true; pending := 0 |} in
  steps sample_strptime (boot sample_strptime (Json (Iterable [])) 1704067200000000) os
  = Some s /\
  (pending s <= 1)%nat.
Proof.
  intros os stored s.
  assert (Hsteps : steps sample_strptime
                     (boot sample_strptime (Json (Iterable [])) 1704067200000000) os
                   = Some s) by reflexivity.
  split; [exact Hsteps|].
  exact (at_most_one_pending_timer sample_strptime _ _ os s Hsteps).
Defined.

(** * Further properties of the metrics *)

Lemma filter_length_le {A} (f g : A -> bool) (l : list A) :
  (forall x, f x = true -> g x = true) ->
  (length (List.filter f l) <= length (List.filter g l))%nat.
Proof.
  intros Hfg. induction l as [|x l IH]; simpl; [lia|].
  destruct (f x) eqn:Hf.
  - rewrite (Hfg x Hf). simpl. lia.
  - destruct (g x); simpl; lia.
Qed.

Lemma count_of_Counter (keys : list string) (k : string) :
  count_of (Counter keys) k = occurrences k keys.
Proof.
  unfold count_of. rewrite counter_get_Counter.
  by destruct (Nat.eqb_spec (occurrences k keys) 0).
Qed.

Lemma counter_total_add (k : string) (c : counter) :
  counter_total (counter_add k c) = S (counter_total c).
Proof.
  induction c as [|[k0 n] c IH]; simpl; [done|].
  destruct (String.eqb k k0); simpl; [done|]. rewrite IH. lia.
Qed.

Lemma counter_total_Counter (keys : list string) :
  counter_total (Counter keys) = length keys.
Proof.
  unfold Counter.
  assert (H : forall c, counter_total (fold_left (fun c k => counter_add k c) keys c)
                        = (counter_total c + length keys)%nat).
  { induction keys as [|k keys IH]; intros c; simpl; [lia|].
    rewrite IH, counter_total_add. lia. }
  by rewrite H.
Qed.

(** X9: a wider window never counts fewer events: for every kind, the
    count in the last [w1] minutes is at most the count in the last [w2]
    minutes when [w1 <= w2], a kind that is not a key counting for 0 as
    [Counter] has it. *)
Theorem count_events_window_monotone (t : datetime) (w1 w2 : Z) (m : memory)
  (kind : string) (c1 c2 : counter) :
  w1 <= w2 ->
  fst (count_events t w1 m) = Ok c1 ->
  fst (count_events t w2 m) = Ok c2 ->
  (count_of c1 kind <= count_of c2 kind)%nat.
Proof.
  intros Hw.
  destruct (window_in_range_decide t w1) as [H1 | H1];
    [|by rewrite count_events_overflow].
  destruct (window_in_range_decide t w2) as [H2 | H2];
    [|by rewrite (count_events_overflow t w2)].
  rewrite !count_events_eq by done; cbn [fst]. intros [= <-] [= <-].
  rewrite !count_of_Counter, !occurrences_map, !filter_filter_bool.
  apply filter_length_le. intros e. rewrite !andb_true_iff.
  intros [Hk He]. split; [done|]. unfold minutes in *. lia.
Qed.

(** X10: the counts of a counter returned by [count_events] add up to
    the number of stored records that fall in the window: every such
    record is counted once, under its kind. *)
Theorem count_events_total (t : datetime) (offset_minutes : Z) (m : memory)
  (c : counter) :
  fst (count_events t offset_minutes m) = Ok c ->
  counter_total c
  = length (List.filter (fun e => created_at e >=? t - minutes offset_minutes)
                        (store m)).
Proof.
  destruct (window_in_range_decide t offset_minutes) as [Hw | Hw];
    [|by rewrite count_events_overflow].
  rewrite count_events_eq by done; cbn [fst]. intros [= <-].
  by rewrite counter_total_Counter, length_map.
Qed.

Section MetricsAfterPolling.
Variable strptime : string -> option Z.

(** X11: asked at the instant of the pruning of a completed poll cycle,
    with a window at least as long as the retention, a counter returned by
    [count_events] counts every record of the store. *)
Theorem count_events_after_cycle (env : environment) (m : memory)
  (offset_minutes : Z) (c : counter) :
  let m' := snd (fetch_github_events strptime env m) in
  cycle_status (fst (fetch_github_events strptime env m)) = Completed ->
  EVENT_RETENTION_MINUTES <= offset_minutes ->
  fst (count_events (now env) offset_minutes m') = Ok c ->
  counter_total c = length (store m').
Proof.
  intros m' H Hw. subst m'.
  apply fetch_completed in H as (_ & H & ->).
  apply try_block_completed in H as (evs & _ & ->).
  pose proof (store_prune (now env)
                (append_store m (accepted strptime evs))) as Hstore.
  set (m1 := snd (prune (now env) _)) in *.
  destruct (window_in_range_decide (now env) offset_minutes) as [Hr | Hr];
    [|by rewrite count_events_overflow].
  rewrite count_events_eq by done; cbn [fst]. intros [= <-].
  rewrite counter_total_Counter, length_map, Hstore.
  rewrite filter_earlier_cutoff by (unfold minutes; lia). done.
Qed.
End MetricsAfterPolling.

Lemma ranking_In (m : memory) (r : string) (n : nat) :
  In (r, n) (stable_sort by_count_desc
               (Counter (map repo (List.filter is_pull_request (store m)))))
  <-> n = length (List.filter (is_pr_of r) (store m)) /\ (0 < n)%nat.
Proof.
  set (c := Counter _).
  assert (Hmem : In (r, n) (stable_sort by_count_desc c) <-> In (r, n) c).
  { split; apply Permutation_in; [|symmetry]; apply stable_sort_perm. }
  rewrite Hmem, counter_get_In by apply Counter_NoDup.
  unfold c. rewrite counter_get_Counter, occurrences_map, filter_filter_bool.
  assert (Hlen : length (List.filter
                   (fun x => String.eqb (repo x) r && is_pull_request x) (store m))
                 = length (List.filter (is_pr_of r) (store m))).
  { f_equal. apply List.filter_ext. intros e. unfold is_pr_of, is_pull_request.
    apply andb_comm. }
  rewrite Hlen.
  destruct (Nat.eqb_spec (length (List.filter (is_pr_of r) (store m))) 0); split;
    [done | lia | intros [= <-]; lia | intros [-> _]; done].
Qed.

(** X12: [top_repos] leaves out no repository that has more pull
    requests than one it lists. *)
Theorem top_repos_keeps_the_largest (top_n : Z) (m : memory)
  (result : list (string * nat)) (r r' : string) (c : nat) :
  fst (top_repos top_n m) = Ok result ->
  In (r, c) result ->
  ~ In r' (map fst result) ->
  (length (List.filter (is_pr_of r') (store m)) <= c)%nat.
Proof.
  rewrite top_repos_eq; cbn [fst]. rewrite most_common_eq. intros [= <-] Hr Hr'.
  fold is_pull_request in *.
  set (ranking := stable_sort by_count_desc _) in *.
  set (c' := length (List.filter (is_pr_of r') (store m))).
  destruct (Nat.eq_dec c' 0%nat) as [Hc'|Hc']; [lia|].
  assert (Hin : In (r', c') ranking) by (apply ranking_In; split; [done | lia]).
  rewrite <- (firstn_skipn (Z.to_nat top_n) ranking) in Hin.
  apply in_app_or in Hin as [Hin | Hin].
  { destruct Hr'. apply in_map_iff. by exists (r', c'). }
  pose proof (sorted_by_count_desc
                (Counter (map repo (List.filter is_pull_request (store m))))) as Hs.
  fold ranking in Hs. rewrite <- (firstn_skipn (Z.to_nat top_n) ranking) in Hs.
  apply (StronglySorted_app_1_elem_of _ _ _ (r, c) (r', c')) in Hs;
    [done | by apply list_elem_of_In | by apply list_elem_of_In].
Qed.

(** ** Ties in the ranking *)

Section Stability.
Context {A : Type} (leb : A -> A -> bool) (p : A -> bool).
Hypothesis leb_within : forall x y, p x = true -> p y = true -> leb x y = true.

Lemma insert_sorted_filter_out (x : A) (l : list A) :
  p x = false -> List.filter p (insert_sorted leb x l) = List.filter p l.
Proof.
  intros Hx. induction l as [|y l IH]; simpl; [by rewrite Hx|].
  destruct (leb x y); simpl; [by rewrite Hx|]. by rewrite IH.
Qed.

Lemma insert_sorted_filter_in (x : A) (l : list A) :
  p x = true -> List.filter p (insert_sorted leb x l) = x :: List.filter p l.
Proof.
  intros Hx. induction l as [|y l IH]; simpl; [by rewrite Hx|].
  destruct (leb x y) eqn:Hxy; simpl; [by rewrite Hx|].
  destruct (p y) eqn:Hy; [|done].
  by rewrite (leb_within x y Hx Hy) in Hxy.
Qed.

(** The sort keeps the order of the elements that it does not tell
    apart. *)
Lemma stable_sort_filter (l : list A) :
  List.filter p (stable_sort leb l) = List.filter p l.
Proof.
  induction l as [|x l IH]; simpl; [done|].
  destruct (p x) eqn:Hx.
  - by rewrite insert_sorted_filter_in, IH.
  - by rewrite insert_sorted_filter_out, IH.
Qed.
End Stability.

Lemma counter_add_keys_eq (k : string) (c : counter) :
  map fst (counter_add k c)
  = if existsb (String.eqb k) (map fst c) then map fst c else map fst c ++ [k].
Proof.
  induction c as [|[k0 n] c IH]; simpl; [done|].
  destruct (String.eqb k k0); simpl; [done|].
  rewrite IH. by destruct (existsb (String.eqb k) (map fst c)).
Qed.

Lemma Counter_keys_from (keys : list string) (c : counter) :
  map fst (fold_left (fun c k => counter_add k c) keys c)
  = map fst c
    ++ List.filter (fun k => negb (existsb (String.eqb k) (map fst c)))
                   (first_occurrences keys).
Proof.
  revert c; induction keys as [|k keys IH]; intros c; simpl.
  - by rewrite app_nil_r.
  - rewrite IH, counter_add_keys_eq.
    destruct (existsb (String.eqb k) (map fst c)) eqn:Hk; simpl.
    + f_equal. rewrite filter_filter_bool. apply List.filter_ext. intros k'.
      destruct (String.eqb_spec k' k) as [->|Hne]; simpl;
        [by rewrite Hk | by rewrite andb_true_r].
    + rewrite <- app_assoc. simpl. do 2 f_equal.
      rewrite filter_filter_bool. apply List.filter_ext. intros k'.
      rewrite existsb_app; simpl. rewrite orb_false_r, negb_orb. done.
Qed.

(** The keys of a [Counter] come in the order of their first occurrence. *)
Lemma Counter_keys (keys : list string) :
  map fst (Counter keys) = first_occurrences keys.
Proof.
  unfold Counter. rewrite Counter_keys_from; simpl.
  apply filter_all_bool. by apply List.Forall_forall.
Qed.

Lemma Counter_counts (keys : list string) :
  List.Forall (fun kn => snd kn = occurrences (fst kn) keys) (Counter keys).
Proof.
  apply List.Forall_forall. intros [k n] Hin; simpl.
  apply counter_get_In in Hin; [|apply Counter_NoDup].
  rewrite counter_get_Counter in Hin.
  destruct (occurrences k keys =? 0)%nat; by inversion Hin.
Qed.

Lemma map_fst_filter_count (g : string -> nat) (n : nat) (c : counter) :
  List.Forall (fun kn => snd kn = g (fst kn)) c ->
  map fst (List.filter (fun kn => (snd kn =? n)%nat) c)
  = List.filter (fun k => (g k =? n)%nat) (map fst c).
Proof.
  induction 1 as [|[k x] c Hk _ IH]; simpl in *; [done|].
  rewrite <- Hk. destruct (x =? n)%nat; simpl; by rewrite IH.
Qed.

(** X13: among the repositories that have the same number of pull
    requests, [top_repos] ranks first the one whose first pull request comes
    first in the store; its answer is a prefix of that ranking, whatever
    [top_n]. *)
Theorem top_repos_tie_order (m : memory) :
  let pr_count (r : string) := length (List.filter (is_pr_of r) (store m)) in
  exists ranking,
    (forall top_n, fst (top_repos top_n m) = Ok (firstn (Z.to_nat top_n) ranking)) /\
    forall n,
      map fst (List.filter (fun rc => (snd rc =? n)%nat) ranking)
      = List.filter (fun r => (pr_count r =? n)%nat)
          (first_occurrences (map repo (List.filter is_pull_request (store m)))).
Proof.
  intros pr_count.
  set (keys := map repo (List.filter is_pull_request (store m))).
  exists (stable_sort by_count_desc (Counter keys)). split.
  { intros top_n. by rewrite top_repos_eq. }
  intros n. rewrite stable_sort_filter.
  2: { intros x y Hx Hy. apply Nat.eqb_eq in Hx, Hy.
       unfold by_count_desc. apply Nat.leb_le. lia. }
  rewrite (map_fst_filter_count (fun k => occurrences k keys)) by apply Counter_counts.
  rewrite Counter_keys. apply List.filter_ext. intros r.
  unfold keys, pr_count. rewrite occurrences_map, filter_filter_bool.
  do 2 f_equal. apply List.filter_ext. intros e.
  unfold is_pr_of, is_pull_request. apply andb_comm.
Qed.

(** ** The mean interval, again *)

Lemma Permutation_filter_bool {A} (f : A -> bool) (l1 l2 : list A) :
  Permutation l1 l2 -> Permutation (List.filter f l1) (List.filter f l2).
Proof.
  induction 1 as [|x l1 l2 _ IH|x y l|l1 l2 l3 _ IH1 _ IH2]; simpl.
  - done.
  - destruct (f x); [by constructor | done].
  - destruct (f x), (f y); try done. apply perm_swap.
  - by etransitivity.
Qed.

Lemma sorted_timestamps_unique (l1 l2 : list event) :
  Permutation l1 l2 ->
  map created_at (stable_sort by_created_at l1)
  = map created_at (stable_sort by_created_at l2).
Proof.
  intros Hp. apply (Sorted_unique Z.le).
  - apply StronglySorted_Sorted, sorted_by_created_at.
  - apply StronglySorted_Sorted, sorted_by_created_at.
  - apply Permutation_map. by rewrite !stable_sort_perm.
Qed.

(** X14: the order in which the records are stored does not matter to
    [average_pr_time]: two stores that hold the same records give the same
    answer. *)
Theorem average_pr_time_order_independent (repo_name : string) (m1 m2 : memory) :
  Permutation (store m1) (store m2) ->
  fst (average_pr_time repo_name m1) = fst (average_pr_time repo_name m2).
Proof.
  intros Hp. rewrite !average_pr_time_eq; cbn [fst]. cbn zeta.
  rewrite !time_diffs_gaps, !stable_sort_length.
  pose proof (Permutation_filter_bool (is_pr_of repo_name) _ _ Hp) as Hf.
  rewrite (sorted_timestamps_unique _ _ Hf), (Permutation_length Hf). done.
Qed.

Lemma gaps_sum (t : Z) (ts : list Z) :
  fold_right Z.add 0 (gaps (t :: ts)) = List.last ts t - t.
Proof.
  revert t; induction ts as [|t' ts IH]; intros t; [simpl; lia|].
  change (gaps (t :: t' :: ts)) with ((t' - t) :: gaps (t' :: ts)).
  cbn [fold_right]. rewrite IH, last_cons. lia.
Qed.

Lemma gaps_length (ts : list Z) : length (gaps ts) = (length ts - 1)%nat.
Proof.
  induction ts as [|t ts IH]; [done|].
  destruct ts as [|t' ts]; [done|].
  change (gaps (t :: t' :: ts)) with ((t' - t) :: gaps (t' :: ts)).
  simpl in *. lia.
Qed.

Lemma sum_total_seconds (ds : list Z) :
  (fold_right Qplus 0 (map total_seconds ds)
   == total_seconds (fold_right Z.add 0%Z ds))%Q.
Proof.
  induction ds as [|d ds IH]; simpl; [reflexivity|].
  rewrite IH. unfold total_seconds, Qeq, Qplus; simpl. lia.
Qed.

Lemma StronglySorted_bounds (t : Z) (ts : list Z) :
  StronglySorted Z.le (t :: ts) ->
  forall x, In x (t :: ts) -> t <= x <= List.last ts t.
Proof.
  revert t; induction ts as [|t' ts IH]; intros t Hs x Hx.
  - destruct Hx as [<- | []]. simpl. lia.
  - apply StronglySorted_inv in Hs as [Hs Ht].
    rewrite last_cons. apply Forall_cons in Ht as [Htt' Ht].
    destruct Hx as [<- | Hx].
    + pose proof (IH t' Hs t' (or_introl eq_refl)). lia.
    + pose proof (IH t' Hs x Hx). lia.
Qed.

(** X15: the mean returned by [average_pr_time] is the time between the
    earliest and the latest of the selected pull requests divided by the
    number of intervals: the timestamps in between do not matter. *)
Theorem average_pr_time_is_span_over_intervals (repo_name : string) (m : memory)
  (q : Q) :
  let stamps := map created_at (List.filter (is_pr_of repo_name) (store m)) in
  fst (average_pr_time repo_name m) = Ok (Some q) ->
  exists earliest latest,
    In earliest stamps /\ In latest stamps /\
    (forall t, In t stamps -> earliest <= t <= latest) /\
    (q == total_seconds (latest - earliest)
          / inject_Z (Z.of_nat (length stamps - 1)))%Q.
Proof.
  intros stamps. rewrite average_pr_time_eq; cbn [fst]. cbn zeta.
  set (s := stable_sort by_created_at _).
  assert (Hperm : Permutation (map created_at s) stamps).
  { apply Permutation_map, stable_sort_perm. }
  destruct (Nat.ltb_spec (length s) 2) as [|Hlen]; [discriminate|].
  intros [= <-].
  pose proof (sorted_by_created_at (List.filter (is_pr_of repo_name) (store m))) as Hs.
  fold s in Hs.
  destruct (map created_at s) as [|t ts] eqn:Hts.
  { apply (f_equal length) in Hts. rewrite length_map in Hts. simpl in Hts. lia. }
  exists t, (List.last ts t).
  assert (Hin : forall x, In x stamps <-> In x (t :: ts)).
  { intros x. split; apply Permutation_in; [by symmetry | done]. }
  split; [apply Hin; by left|]. split.
  { apply Hin. destruct ts as [|t' ts]; [by left | right].
    rewrite last_cons. clear. revert t'. induction ts as [|a ts IH]; intros t'.
    - by left.
    - right. rewrite last_cons. apply IH. }
  split.
  { intros x Hx. apply (StronglySorted_bounds t ts Hs), Hin, Hx. }
  rewrite sum_fold_right, time_diffs_gaps, Hts, sum_total_seconds, gaps_sum.
  rewrite length_map, gaps_length.
  by rewrite <- (Permutation_length Hperm).
Qed.

(** * The routes *)

Lemma pr_average_eq (r : string) (m : memory) :
  r <> "" ->
  pr_average (Some r) m
  = (Ok (match fst (average_pr_time r m) with
         | Ok (Some q) => (AverageBody r (Some q) None, 200)
         | _ => (AverageBody r None (Some "Not enough PR events yet"), 200)
         end),
     snd (average_pr_time r m)).
Proof.
  intros Hr. unfold pr_average. apply String.eqb_neq in Hr. rewrite Hr.
  unfold bind. rewrite average_pr_time_eq; cbn [fst snd]. cbn zeta.
  by destruct (length _ <? 2)%nat.
Qed.

(** X16: [pr_average] answers 400 with an error object, and reads
    nothing, exactly when the [repo] parameter is absent or empty.
    Otherwise it answers 200 for that repository, with a null average and
    a message when the store has fewer than two pull requests of it, and
    with the average and no message when it has two or more. *)
Theorem pr_average_answers (repo : option string) (m : memory) :
  exists body code,
    fst (pr_average repo m) = Ok (body, code) /\
    (((repo = None \/ repo = Some "") /\
      code = 400 /\
      body = ErrorBody "Please provide repo parameter" /\
      snd (pr_average repo m) = m)
     \/
     (exists r avg msg,
        repo = Some r /\ r <> "" /\
        code = 200 /\
        body = AverageBody r avg msg /\
        fst (average_pr_time r m) = Ok avg /\
        (avg = None <-> (length (List.filter (is_pr_of r) (store m)) < 2)%nat) /\
        (msg = None <-> avg <> None))).
Proof.
  destruct repo as [r|].
  2: { eexists _, _. split; [reflexivity|]. left. repeat split. by left. }
  destruct (String.eqb_spec r "") as [->|Hr].
  { eexists _, _. split; [reflexivity|]. left. repeat split. by right. }
  rewrite pr_average_eq by done. cbn [fst].
  destruct (fst (average_pr_time r m)) as [[q|]|x] eqn:Havg;
    pose proof Havg as Hraw;
    rewrite average_pr_time_eq in Havg; cbn [fst] in Havg; cbn zeta in Havg;
    rewrite stable_sort_length in Havg;
    destruct (Nat.ltb_spec (length (List.filter (is_pr_of r) (store m))) 2)
      as [Hlt|Hge]; try discriminate.
  - eexists _, _. split; [reflexivity|]. right.
    exists r, (Some q), None.
    repeat split; try done; try (intros; lia).
  - eexists _, _. split; [reflexivity|]. right.
    exists r, None, (Some "Not enough PR events yet").
    repeat split; try done.
Qed.

Lemma list_repos_eq (m : memory) :
  list_repos m = (Ok (list_to_set (map repo (store m))), m).
Proof. reflexivity. Qed.

(** X17: [list_repos] names exactly the repositories that have a record
    in the store, of whatever kind, and changes nothing; so it names every
    repository that [top_repos] ranks and every repository for which
    [average_pr_time] returns an average. *)
Theorem list_repos_covers_the_metrics (m : memory) :
  exists repos : gset string,
    list_repos m = (Ok repos, m) /\
    (forall r, r ∈ repos <-> exists e, In e (store m) /\ repo e = r) /\
    (forall top_n r, In r (map fst (match fst (top_repos top_n m) with
                                    | Ok result => result
                                    | Raise _ => []
                                    end)) -> r ∈ repos) /\
    (forall r, (exists q, fst (average_pr_time r m) = Ok (Some q)) -> r ∈ repos).
Proof.
  exists (list_to_set (map repo (store m))). split; [apply list_repos_eq|].
  assert (Hin : forall r, r ∈ (list_to_set (map repo (store m)) : gset string)
                          <-> exists e, In e (store m) /\ repo e = r).
  { intros r. rewrite elem_of_list_to_set, list_elem_of_In, in_map_iff.
    split; intros (e & H1 & H2); by exists e. }
  assert (Hpr : forall r, (0 < length (List.filter (is_pr_of r) (store m)))%nat ->
                          exists e, In e (store m) /\ repo e = r).
  { intros r Hlen.
    destruct (List.filter (is_pr_of r) (store m)) as [|e l] eqn:Hf; [simpl in Hlen; lia|].
    assert (He : In e (List.filter (is_pr_of r) (store m))) by (rewrite Hf; by left).
    apply filter_In in He as [He Hp]. apply is_pr_of_spec in Hp as [_ Hp].
    by exists e. }
  split; [exact Hin|]. split.
  - intros top_n r. rewrite top_repos_eq; cbn [fst]. rewrite most_common_eq.
    intros Hr. apply in_map_iff in Hr as ([r0 c] & <- & Hr); simpl.
    apply Hin, Hpr.
    assert (Hrank : In (r0, c) (stable_sort by_count_desc
              (Counter (map repo (List.filter is_pull_request (store m)))))).
    { rewrite <- (firstn_skipn (Z.to_nat top_n)). apply in_or_app. by left. }
    apply ranking_In in Hrank as [<- Hc]. exact Hc.
  - intros r [q Hq]. rewrite average_pr_time_eq in Hq; cbn [fst] in Hq.
    cbn zeta in Hq. rewrite stable_sort_length in Hq.
    destruct (Nat.ltb_spec (length (List.filter (is_pr_of r) (store m))) 2);
      [discriminate|].
    apply Hin, Hpr. lia.
Qed.

Lemma debug_events_eq (m : memory) :
  debug_events m
  = (Ok (firstn 5 (store m)),
     {| heap := heap m ++ [firstn 5 (store m)]; events := events m |}).
Proof.
  unfold debug_events, bind, load_events, items, new_list; simpl.
  by rewrite contents_new_list.
Qed.

Lemma keeps_refl (m : memory) : keeps m m.
Proof. by split. Qed.

Section RouteFacts.
Variable int_of_str : string -> option Z.

Lemma int_arg_memory (arg : option string) (default : Z) (m : memory) :
  snd (int_arg int_of_str arg default m) = m.
Proof.
  unfold int_arg. destruct arg as [s|]; [|done]. by destruct (int_of_str s).
Qed.

(** X18: the routes [pr_average], [list_repos], [debug_events],
    [events_count] and [top_repos] leave the global [events] bound to the
    same list and every existing list as it was, whatever their query
    parameters, also when a parameter is missing or is not a number; the
    sample of [debug_events] is a copy of the first five records, or of the
    whole store when it holds fewer. *)
Theorem routes_leave_store_unchanged (m : memory) (repo offset n : option string)
  (t : datetime) :
  let unchanged (m' : memory) := keeps m m' /\ store m' = store m in
  unchanged (snd (pr_average repo m)) /\
  unchanged (snd (list_repos m)) /\
  unchanged (snd (debug_events m)) /\
  unchanged (snd (events_count int_of_str offset t m)) /\
  unchanged (snd (top_repos_request int_of_str n m)) /\
  exists rest,
    store m = firstn 5 (store m) ++ rest /\
    fst (debug_events m) = Ok (firstn 5 (store m)) /\
    length (firstn 5 (store m)) = Nat.min 5 (length (store m)).
Proof.
  intros unchanged.
  assert (Hnew : forall l, (store m = [] -> l = []) ->
            unchanged {| heap := heap m ++ [l]; events := events m |}).
  { intros l Hl. split; [apply keeps_new_list | by apply store_new_list]. }
  assert (Hsame : unchanged m) by (split; [apply keeps_refl | done]).
  repeat split_and; try exact Hsame.
  - destruct repo as [r|]; [|exact Hsame].
    destruct (String.eqb_spec r "") as [->|Hr]; [exact Hsame|].
    rewrite pr_average_eq by done. cbn [snd]. rewrite average_pr_time_eq; cbn [snd].
    apply Hnew. intros H. apply stable_sort_nil, filter_nil_of_nil, H.
  - rewrite debug_events_eq; cbn [snd]. apply Hnew. by intros ->.
  - unfold events_count, bind.
    pose proof (int_arg_memory offset 10 m) as Hm.
    destruct (int_arg int_of_str offset 10 m) as [[w|x] m1]; cbn [snd] in Hm; subst m1;
      [|exact Hsame].
    destruct (count_events_memory t w m) as [-> | ->]; [exact Hsame|].
    apply Hnew. apply filter_nil_of_nil.
  - unfold top_repos_request, bind.
    pose proof (int_arg_memory n 5 m) as Hm.
    destruct (int_arg int_of_str n 5 m) as [[k|x] m1]; cbn [snd] in Hm; subst m1;
      [|exact Hsame].
    rewrite top_repos_eq; cbn [snd]. apply Hnew. apply filter_nil_of_nil.
  - exists (skipn 5 (store m)). split; [by rewrite firstn_skipn|].
    split; [by rewrite debug_events_eq|]. apply length_firstn.
Qed.
End RouteFacts.

(** * The further properties on the sample data *)

Lemma well_formed_initial_memory : well_formed initial_memory.
Proof. unfold well_formed; simpl; lia. Qed.


Lemma completed_cycle_store_witness :
  well_formed initial_memory /\
  cycle_status (fst (fetch_github_events sample_strptime sample_env initial_memory))
  = Completed /\
  store (snd (fetch_github_events sample_strptime sample_env initial_memory))
  = List.filter
      (fun e => created_at e >=? now sample_env - minutes EVENT_RETENTION_MINUTES)
      (store initial_memory)
    ++ List.filter
         (fun e => created_at e >=? now sample_env - minutes EVENT_RETENTION_MINUTES)
         (cycle_batch sample_strptime sample_env).
Proof.
  assert (Hst : cycle_status (fst (fetch_github_events sample_strptime sample_env
                  initial_memory)) = Completed) by reflexivity.
  split; [exact well_formed_initial_memory|]. split; [exact Hst|].
  exact (completed_cycle_store sample_strptime sample_env initial_memory
           well_formed_initial_memory Hst).
Defined.

Lemma completed_cycles_compose_witness :
  let m1 := snd (fetch_github_events sample_strptime sample_env initial_memory) in
  let m2 := snd (fetch_github_events sample_strptime sample_later_env m1) in
  well_formed initial_memory /\
  cycle_status (fst (fetch_github_events sample_strptime sample_env initial_memory))
  = Completed /\
  cycle_status (fst (fetch_github_events sample_strptime sample_later_env m1))
  = Completed /\
  now sample_env <= now sample_later_env /\
  store m2
  = List.filter
      (fun e => created_at e >=? now sample_later_env - minutes EVENT_RETENTION_MINUTES)
      (store initial_memory ++ cycle_batch sample_strptime sample_env
         ++ cycle_batch sample_strptime sample_later_env).
Proof.
  intros m1 m2.
  assert (H1 : cycle_status (fst (fetch_github_events sample_strptime sample_env
                 initial_memory)) = Completed) by reflexivity.
  assert (H2 : cycle_status (fst (fetch_github_events sample_strptime
                 sample_later_env m1)) = Completed) by reflexivity.
  assert (Hnow : now sample_env <= now sample_later_env) by (simpl; lia).
  split; [exact well_formed_initial_memory|]. split; [exact H1|].
  split; [exact H2|]. split; [exact Hnow|].
  exact (completed_cycles_compose sample_strptime sample_env sample_later_env
           initial_memory well_formed_initial_memory H1 H2 Hnow).
Defined.

Lemma same_feed_is_stored_twice_witness :
  let m1 := snd (fetch_github_events sample_strptime sample_env initial_memory) in
  let m2 := snd (fetch_github_events sample_strptime sample_later_env m1) in
  let batch := cycle_batch sample_strptime sample_env in
  feed sample_later_env = feed sample_env /\
  length batch = 2%nat /\
  store m2 = store initial_memory ++ batch ++ batch.
Proof.
  intros m1 m2 batch.
  assert (H1 : cycle_status (fst (fetch_github_events sample_strptime sample_env
                 initial_memory)) = Completed) by reflexivity.
  assert (H2 : cycle_status (fst (fetch_github_events sample_strptime
                 sample_later_env m1)) = Completed) by reflexivity.
  assert (Hfeed : feed sample_later_env = feed sample_env) by reflexivity.
  assert (Hrecent : List.Forall
            (fun e => created_at e >= now sample_env - minutes EVENT_RETENTION_MINUTES
                      /\ created_at e
                         >= now sample_later_env - minutes EVENT_RETENTION_MINUTES)
            (store initial_memory ++ batch)).
  { repeat constructor; vm_compute; discriminate. }
  split; [exact Hfeed|]. split; [reflexivity|].
  exact (same_feed_is_stored_twice sample_strptime sample_env sample_later_env
           initial_memory well_formed_initial_memory H1 H2 Hfeed Hrecent).
Defined.

Lemma polling_goes_on_witness :
  let envs := [sample_unreachable_env; sample_broken_env; sample_env] in
  List.Forall (fun env => stop_at_entry env = false /\ stop_at_exit env = false) envs /\
  run sample_strptime envs initial_memory
  = all_cycles sample_strptime envs initial_memory.
Proof.
  intros envs.
  assert (H : List.Forall
                (fun env => stop_at_entry env = false /\ stop_at_exit env = false) envs)
    by (repeat constructor).
  split; [exact H|].
  exact (polling_goes_on sample_strptime envs initial_memory H).
Defined.

Lemma count_events_window_monotone_witness :
  let m := window_example 1704067215000000 in
  5 <= 10 /\
  fst (count_events 1704067215000000 5 m)
  = Ok [("PullRequestEvent", 2%nat); ("WatchEvent", 1%nat)] /\
  fst (count_events 1704067215000000 10 m)
  = Ok [("PullRequestEvent", 3%nat); ("WatchEvent", 1%nat)] /\
  (count_of [("PullRequestEvent", 2%nat); ("WatchEvent", 1%nat)] "PullRequestEvent"
   <= count_of [("PullRequestEvent", 3%nat); ("WatchEvent", 1%nat)] "PullRequestEvent")%nat.
Proof.
  intros m.
  assert (Hw : 5 <= 10) by lia.
  assert (H1 : fst (count_events 1704067215000000 5 m)
               = Ok [("PullRequestEvent", 2%nat); ("WatchEvent", 1%nat)])
    by reflexivity.
  assert (H2 : fst (count_events 1704067215000000 10 m)
               = Ok [("PullRequestEvent", 3%nat); ("WatchEvent", 1%nat)])
    by reflexivity.
  split; [exact Hw|]. split; [exact H1|]. split; [exact H2|].
  exact (count_events_window_monotone 1704067215000000 5 10 m "PullRequestEvent"
           _ _ Hw H1 H2).
Defined.

Lemma count_events_total_witness :
  let m := window_example 1704067215000000 in
  let c := [("PullRequestEvent", 3%nat); ("WatchEvent", 1%nat)] in
  fst (count_events 1704067215000000 10 m) = Ok c /\
  counter_total c
  = length (List.filter (fun e => created_at e >=? 1704067215000000 - minutes 10)
                        (store m)).
Proof.
  intros m c.
  assert (H : fst (count_events 1704067215000000 10 m) = Ok c) by reflexivity.
  split; [exact H|].
  exact (count_events_total 1704067215000000 10 m c H).
Defined.

Lemma count_events_after_cycle_witness :
  let m' := snd (fetch_github_events sample_strptime sample_env initial_memory) in
  let c := [("WatchEvent", 1%nat); ("IssuesEvent", 1%nat)] in
  cycle_status (fst (fetch_github_events sample_strptime sample_env initial_memory))
  = Completed /\
  EVENT_RETENTION_MINUTES <= 180 /\
  fst (count_events (now sample_env) 180 m') = Ok c /\
  counter_total c = length (store m').
Proof.
  intros m' c.
  assert (H : cycle_status (fst (fetch_github_events sample_strptime sample_env
                initial_memory)) = Completed) by reflexivity.
  assert (Hw : EVENT_RETENTION_MINUTES <= 180) by (unfold EVENT_RETENTION_MINUTES; lia).
  assert (Hc : fst (count_events (now sample_env) 180 m') = Ok c) by reflexivity.
  split; [exact H|]. split; [exact Hw|]. split; [exact Hc|].
  exact (count_events_after_cycle sample_strptime sample_env initial_memory 180 c
           H Hw Hc).
Defined.

Lemma top_repos_keeps_the_largest_witness :
  fst (top_repos 2 ranking_example) = Ok [("b/y", 5%nat); ("a/x", 5%nat)] /\
  In ("a/x", 5%nat) [("b/y", 5%nat); ("a/x", 5%nat)] /\
  ~ In "c/z" (map fst [("b/y", 5%nat); ("a/x", 5%nat)]) /\
  (length (List.filter (is_pr_of "c/z") (store ranking_example)) <= 5)%nat.
Proof.
  assert (H : fst (top_repos 2 ranking_example) = Ok [("b/y", 5%nat); ("a/x", 5%nat)])
    by reflexivity.
  assert (Hin : In ("a/x", 5%nat) [("b/y", 5%nat); ("a/x", 5%nat)])
    by (right; left; reflexivity).
  assert (Hout : ~ In "c/z" (map fst [("b/y", 5%nat); ("a/x", 5%nat)])).
  { simpl. intros [Hc | [Hc | []]]; discriminate Hc. }
  split; [exact H|]. split; [exact Hin|]. split; [exact Hout|].
  exact (top_repos_keeps_the_largest 2 ranking_example _ "a/x" "c/z" 5 H Hin Hout).
Defined.

Lemma average_pr_time_order_independent_witness :
  Permutation (store sample_store) (store sample_store_shuffled) /\
  fst (average_pr_time "a/x" sample_store)
  = fst (average_pr_time "a/x" sample_store_shuffled).
Proof.
  assert (Hp : Permutation (store sample_store) (store sample_store_shuffled)).
  { unfold store, contents; simpl.
    apply (Permutation_cons_app [pull_request "a/x" 30000000; pull_request "b/y" 7000000]).
    apply (Permutation_cons_app [pull_request "a/x" 30000000; pull_request "b/y" 7000000;
                                 pull_request "a/x" 0]).
    simpl. apply (Permutation_cons_app [pull_request "a/x" 30000000;
                                        pull_request "b/y" 7000000]).
    simpl. apply perm_swap. }
  split; [exact Hp|].
  exact (average_pr_time_order_independent "a/x" sample_store sample_store_shuffled Hp).
Defined.

Lemma average_pr_time_is_span_over_intervals_witness :
  let stamps := map created_at (List.filter (is_pr_of "a/x") (store sample_store)) in
  fst (average_pr_time "a/x" sample_store)
  = Ok (Some (30000000000000 # 2000000000000)) /\
  exists earliest latest,
    In earliest stamps /\ In latest stamps /\
    (forall t, In t stamps -> earliest <= t <= latest) /\
    (30000000000000 # 2000000000000
     == total_seconds (latest - earliest)
        / inject_Z (Z.of_nat (length stamps - 1)))%Q.
Proof.
  intros stamps.
  assert (H : fst (average_pr_time "a/x" sample_store)
              = Ok (Some (30000000000000 # 2000000000000))) by reflexivity.
  split; [exact H|].
  exact (average_pr_time_is_span_over_intervals "a/x" sample_store _ H).
Defined.

Lemma list_repos_covers_the_metrics_witness :
  exists repos : gset string,
    list_repos sample_store = (Ok repos, sample_store) /\ "a/x" ∈ repos.
Proof.
  destruct (list_repos_covers_the_metrics sample_store)
    as (repos & Heq & _ & _ & Havg).
  exists repos. split; [exact Heq|].
  apply Havg. eexists. reflexivity.
Defined.

(** X19: [top_repos] answers with [top_n] entries, or with one entry for
    each repository that has a pull request when there are fewer of them,
    and with none when [top_n] is zero or negative. *)
Theorem top_repos_length (top_n : Z) (m : memory) :
  exists result,
    fst (top_repos top_n m) = Ok result /\
    length result
    = Nat.min (Z.to_nat top_n)
        (length (first_occurrences
                   (map repo (List.filter is_pull_request (store m))))).
Proof.
  rewrite top_repos_eq; cbn [fst]. eexists; split; [reflexivity|].
  rewrite most_common_eq, length_firstn, stable_sort_length.
  by rewrite <- Counter_keys, length_map.
Qed.

(** C4 does not hold for every window: a window of 2000000000 minutes
    starts before year 1, and [count_events] raises [OverflowError]. *)
Lemma count_events_overflows :
  count_events 1704067215000000 2000000000 (window_example 1704067215000000)
  = (Raise OverflowError, window_example 1704067215000000) /\
  ~ exists c, fst (count_events 1704067215000000 2000000000
                     (window_example 1704067215000000)) = Ok c.
Proof.
  split; [reflexivity|]. intros [c Hc]. discriminate Hc.
Qed.

Lemma count_events_correct_witness :
  window_in_range 1704067215000000 10 /\
  exists c, fst (count_events 1704067215000000 10 (window_example 1704067215000000))
            = Ok c /\
            counter_get c "PullRequestEvent" = Some 3%nat.
Proof.
  assert (Hw : window_in_range 1704067215000000 10).
  { unfold window_in_range, timedelta_max_days, datetime_min, datetime_max, minutes.
    split; split; vm_compute; discriminate. }
  split; [exact Hw|].
  exact (proj2 (count_events_correct 1704067215000000 10
                  (window_example 1704067215000000) "PullRequestEvent" Hw) Hw).
Defined.
